(** * datapoints-csv-extractor: a shallow embedding and its properties

    The development embeds [datapoints_csv_extractor.py]: the file scanner
    [find_files_in_path], the cell parser [create_data_points], the per-file
    processor [process_csv_file], the disposition loop [process_files], the
    driver [extract_data_points] and the start-up listing
    [get_all_time_series].  Of the earlier prototype
    [datapoints-csv-extractor.py] the scanner [find_new_files] is embedded in
    module [Prototype] and the delivery [post_datapoints] in module
    [PrototypePost], for comparison.

    Modelling choices, all at the boundary with libraries the script
    imports:
    - text is [string]: the files are decoded as Latin-1, one byte per
      character, which is what [ascii] holds;
    - a Python [float] is the exact decimal it was read from ([pyfloat]);
      rounding to binary64 is not modelled.  Wall-clock times and file
      modification times are exact rationals ([Q]);
    - [pandas.read_csv] is not modelled: a file's content is what
      [read_csv] returns for it, a [DataFrame] or an exception;
    - the remote store answers each call by returning or by raising; the
      answer may depend on the calls issued before ([CogniteClient]);
    - exceptions are values ([exn]); every function that can raise returns
      an [outcome], and state changes made before a raise are kept. *)

From Stdlib Require Import Ascii String QArith Qround Lqa.
From stdpp Require Import gmap strings list fin_maps sorting.

Local Open Scope string_scope.
Local Open Scope Z_scope.
Local Open Scope list_scope.

(** ** Python strings *)

Module PyStr.

(** [str.isspace] on the Latin-1 range. *)
Definition is_space (c : ascii) : bool :=
  let n := N_of_ascii c in
  ((9 <=? n) && (n <=? 13) || (28 <=? n) && (n <=? 32)
   || (n =? 133) || (n =? 160))%N.

Fixpoint lstrip (l : list ascii) : list ascii :=
  match l with
  | c :: l' => if is_space c then lstrip l' else l
  | [] => []
  end.

Definition rstrip (l : list ascii) : list ascii := rev (lstrip (rev l)).

(** [s.strip()] *)
Definition strip (s : string) : string :=
  string_of_list_ascii (rstrip (lstrip (list_ascii_of_string s))).

(** Split at the last occurrence of [sep]; [None] when there is none. *)
Fixpoint rsplit1 (sep : ascii) (l : list ascii)
  : option (list ascii * list ascii) :=
  match l with
  | [] => None
  | c :: l' =>
      match rsplit1 sep l' with
      | Some (h, t) => Some (c :: h, t)
      | None => if Ascii.eqb c sep then Some ([], l') else None
      end
  end.

(** [s.rpartition(sep)] for a one-character separator: the parts before
    the last [sep], the separator, and the part after it; two empty
    strings and [s] when [s] holds no [sep]. *)
Definition rpartition (sep : ascii) (s : string) : string * string * string :=
  match rsplit1 sep (list_ascii_of_string s) with
  | Some (h, t) =>
      (string_of_list_ascii h, String sep EmptyString, string_of_list_ascii t)
  | None => (EmptyString, EmptyString, s)
  end.

(** [s.replace(old, new)] for one-character [old] and [new]. *)
Fixpoint replace (old new : ascii) (s : string) : string :=
  match s with
  | EmptyString => EmptyString
  | String c s' =>
      String (if Ascii.eqb c old then new else c) (replace old new s')
  end.

(** [s.endswith(suffix)] *)
Definition endswith (s suffix : string) : bool :=
  let n := String.length s in
  let k := String.length suffix in
  (k <=? n)%nat && String.eqb (substring (n - k) k s) suffix.

End PyStr.

(** ** Python numbers *)

(** A [float]: not-a-number, an infinity, or the finite decimal
    [(-1)^neg * m * 10^e]. *)
Inductive pyfloat : Type :=
| PyNaN
| PyInf (neg : bool)
| PyFin (neg : bool) (m : N) (e : Z).

Inductive exn : Type :=
| SystemExit (code : Z)
| KeyboardInterrupt
| ValueError
| OverflowError
| AttributeError
| IndexError
| KeyError
| IOError
| APIError
| OtherError.

(** [isinstance(e, Exception)]: [SystemExit] and [KeyboardInterrupt] derive
    from [BaseException] only. *)
Definition is_Exception (e : exn) : bool :=
  match e with
  | SystemExit _ | KeyboardInterrupt => false
  | _ => true
  end.

Definition is_IOError (e : exn) : bool :=
  match e with IOError => true | _ => false end.

Inductive outcome (A : Type) : Type :=
| Return (a : A)
| Raise (e : exn).
Arguments Return {A} a.
Arguments Raise {A} e.

Module PyNum.

Definition is_nan (f : pyfloat) : bool :=
  match f with PyNaN => true | _ => false end.

(** The rational a finite float stands for. *)
Definition Q_of_fin (neg : bool) (m : N) (e : Z) : Q :=
  let a := inject_Z (if neg then - Z.of_N m else Z.of_N m) in
  match e with
  | Zneg p => (a / inject_Z (10 ^ Zpos p))%Q
  | _ => (a * inject_Z (10 ^ e))%Q
  end.

Definition is_digit (c : ascii) : bool :=
  let n := N_of_ascii c in ((48 <=? n) && (n <=? 57))%N.

Definition digit_value (c : ascii) : N := (N_of_ascii c - 48)%N.

Fixpoint span_digits (l : list ascii) : list ascii * list ascii :=
  match l with
  | c :: l' =>
      if is_digit c
      then let '(ds, r) := span_digits l' in (c :: ds, r)
      else ([], l)
  | [] => ([], [])
  end.

Definition digits_value (ds : list ascii) : N :=
  fold_left (fun acc d => (acc * 10 + digit_value d)%N) ds 0%N.

(** Underscores in a numeric literal: each one stands between two digits.
    Returns the text without them. *)
Fixpoint drop_underscores (prev : option ascii) (l : list ascii)
  : option (list ascii) :=
  match l with
  | [] =>
      match prev with
      | Some "_"%char => None
      | _ => Some []
      end
  | c :: l' =>
      if Ascii.eqb c "_"
      then match prev with
           | Some p =>
               if is_digit p then drop_underscores (Some c) l' else None
           | None => None
           end
      else match prev with
           | Some "_"%char =>
               if is_digit c
               then cons c <$> drop_underscores (Some c) l'
               else None
           | _ => cons c <$> drop_underscores (Some c) l'
           end
  end.

Definition take_sign (l : list ascii) : bool * list ascii :=
  match l with
  | "-"%char :: l' => (true, l')
  | "+"%char :: l' => (false, l')
  | _ => (false, l)
  end.

Definition lower (c : ascii) : ascii :=
  let n := N_of_ascii c in
  if ((65 <=? n) && (n <=? 90))%N then ascii_of_N (n + 32) else c.

(** The unsigned part of a decimal float literal:
    digits [.] digits, with an optional exponent. *)
Definition parse_decimal (l : list ascii) : option (N * Z) :=
  let '(ip, r1) := span_digits l in
  let '(fp, r2) :=
    match r1 with
    | "."%char :: r => span_digits r
    | _ => ([], r1)
    end in
  match ip ++ fp with
  | [] => None
  | ds =>
      let m := digits_value ds in
      let k := Z.of_nat (length fp) in
      match r2 with
      | [] => Some (m, - k)
      | c :: r3 =>
          if Ascii.eqb (lower c) "e"
          then
            let '(eneg, r4) := take_sign r3 in
            match span_digits r4 with
            | ((_ :: _) as ed, []) =>
                let x := Z.of_N (digits_value ed) in
                Some (m, (if eneg then - x else x) - k)
            | _ => None
            end
          else None
      end
  end.

(** [float(s)] for a [str]: [None] stands for [ValueError]. *)
Definition float_of_str (s : string) : option pyfloat :=
  let l := list_ascii_of_string (PyStr.strip s) in
  l ← drop_underscores None l;
  let '(neg, r) := take_sign l in
  let w := string_of_list_ascii (map lower r) in
  if String.eqb w "nan" then Some PyNaN
  else if String.eqb w "inf" || String.eqb w "infinity" then Some (PyInf neg)
  else '(m, e) ← parse_decimal r; Some (PyFin neg m e).

(** Truncation towards zero of a finite float. *)
Definition trunc_fin (neg : bool) (m : N) (e : Z) : Z :=
  let a :=
    match e with
    | Zneg p => Z.of_N m / 10 ^ Zpos p
    | _ => Z.of_N m * 10 ^ e
    end in
  if neg then - a else a.

(** [int(f)] for a [float]. *)
Definition int_of_float (f : pyfloat) : outcome Z :=
  match f with
  | PyNaN => Raise ValueError
  | PyInf _ => Raise OverflowError
  | PyFin neg m e => Return (trunc_fin neg m e)
  end.

(** [int(s)] for a [str], base ten. *)
Definition int_of_str (s : string) : outcome Z :=
  let l := list_ascii_of_string (PyStr.strip s) in
  match drop_underscores None l with
  | None => Raise ValueError
  | Some l =>
      let '(neg, r) := take_sign l in
      match span_digits r with
      | ((_ :: _) as ds, []) =>
          let x := Z.of_N (digits_value ds) in
          Return (if neg then - x else x)
      | _ => Raise ValueError
      end
  end.

(** [int(time)] for an exact time: truncation towards zero. *)
Definition int_of_Q (q : Q) : Z := Z.quot (Qnum q) (Zpos (Qden q)).

Definition Qltb (x y : Q) : bool :=
  Qnum x * Zpos (Qden y) <? Qnum y * Zpos (Qden x).

End PyNum.

(** ** Data *)

(** [Datapoint(timestamp, value)] *)
Record Datapoint : Type := mkDatapoint {
  timestamp : Z;
  value : pyfloat
}.

(** [TimeseriesWithDatapoints(name, datapoints)] *)
Record TimeseriesWithDatapoints : Type := mkTimeseriesWithDatapoints {
  tswd_name : string;
  datapoints : list Datapoint
}.

(** [TimeSeries(name, description, metadata={"externalID": ...})] *)
Record TimeSeries : Type := mkTimeSeries {
  ts_name : string;
  description : string;
  metadata_externalID : string
}.

(** A cell of a data frame column, as [df[col].tolist()] yields it: a null
    ([None], a missing value), a [str] (columns of dtype object), or a number
    (columns pandas could convert). *)
Inductive cell : Type :=
| CNull
| CStr (s : string)
| CNum (f : pyfloat).

(** An entry of the index column, as [df.index.tolist()] yields it. *)
Inductive index_value : Type :=
| IdxInt (z : Z)
| IdxFloat (f : pyfloat)
| IdxStr (s : string).

(** What [pandas.read_csv(..., skiprows=[1], index_col=0)] returns: the index
    and the remaining columns in file order, each with its header.  Headers
    are distinct (pandas renames duplicates), so [df[col]] is the column
    iterated. *)
Record DataFrame : Type := mkDataFrame {
  index : list index_value;
  columns : list (string * list cell)
}.

(** ** Logging *)

Inductive level : Type := INFO | WARNING | ERROR | FATAL.

Inductive message : Type :=
| MsgExn (e : exn)
| MsgProcessed (count : nat) (path : string)
| MsgParsingFailed (path : string) (e : exn)
| MsgDeleteMoveFailed (path : string) (e : exn)
| MsgStatFailed (path : string) (e : exn)
| MsgNoFiles
| MsgExtractionComplete
| MsgExtractorStopped.

Definition log_record : Type := level * message.

(** ** The world the script runs in *)

(** A directory entry of the input folder.  [stat_mtime] is
    [path.stat().st_mtime], [None] when [stat] raises (a dangling link, a
    file that is gone); [read_csv] is what pandas returns for the file. *)
Record file : Type := mkFile {
  stat_mtime : option Q;
  read_csv : outcome DataFrame
}.

Inductive request : Type :=
| PostTimeSeries (l : list TimeSeries)
| PostDatapoints (l : list TimeseriesWithDatapoints).

(** The remote store: whether a call raises [APIError], given the calls
    issued before it. *)
Record CogniteClient : Type := mkClient {
  fails : list request -> request -> bool
}.

(** The counters of the telemetry sink. *)
Record Prometheus : Type := mkPrometheus {
  time_series_gauge : nat;
  time_series_data_points_gauge : gmap string nat;
  all_data_points_gauge : nat;
  pushed : nat
}.

Record world : Type := mkWorld {
  folder : gmap string file;            (* the input folder, by file name *)
  failed_folder : option (gmap string file); (* its subfolder failed/, once made *)
  now : Q;                              (* time.time() *)
  time_series_cache : gmap string string; (* externalID -> name, one shared dict *)
  posted : list request;                (* calls to the remote store, oldest first *)
  logged : list log_record;             (* log lines, oldest first *)
  prometheus : Prometheus;
  scanned : list Z                      (* after_timestamp of each scan, oldest first *)
}.

Definition set_folder (f : gmap string file) (w : world) : world :=
  mkWorld f (failed_folder w) (now w) (time_series_cache w) (posted w)
          (logged w) (prometheus w) (scanned w).
Definition set_failed_folder (f : option (gmap string file)) (w : world) : world :=
  mkWorld (folder w) f (now w) (time_series_cache w) (posted w)
          (logged w) (prometheus w) (scanned w).
Definition set_time_series_cache (c : gmap string string) (w : world) : world :=
  mkWorld (folder w) (failed_folder w) (now w) c (posted w)
          (logged w) (prometheus w) (scanned w).
Definition set_posted (l : list request) (w : world) : world :=
  mkWorld (folder w) (failed_folder w) (now w) (time_series_cache w) l
          (logged w) (prometheus w) (scanned w).
Definition set_logged (l : list log_record) (w : world) : world :=
  mkWorld (folder w) (failed_folder w) (now w) (time_series_cache w) (posted w)
          l (prometheus w) (scanned w).
Definition set_prometheus (p : Prometheus) (w : world) : world :=
  mkWorld (folder w) (failed_folder w) (now w) (time_series_cache w) (posted w)
          (logged w) p (scanned w).
Definition set_scanned (l : list Z) (w : world) : world :=
  mkWorld (folder w) (failed_folder w) (now w) (time_series_cache w) (posted w)
          (logged w) (prometheus w) l.

(** ** Computations that change the world and may raise *)

Definition M (A : Type) : Type := world -> world * outcome A.

Definition ret {A} (a : A) : M A := fun w => (w, Return a).
Definition raise {A} (e : exn) : M A := fun w => (w, Raise e).
Definition bind {A B} (m : M A) (k : A -> M B) : M B :=
  fun w =>
    match m w with
    | (w', Return a) => k a w'
    | (w', Raise e) => (w', Raise e)
    end.
Definition lift {A} (o : outcome A) : M A := fun w => (w, o).

Notation "x <- m ;; k" := (bind m (fun x => k))
  (at level 100, m at next level, right associativity).
Notation "m ;; k" := (bind m (fun _ => k))
  (at level 100, right associativity).

(** [try: m  except <class> as exc: handler exc]: only exceptions of the
    class are handled. *)
Definition try_except {A} (m : M A) (class : exn -> bool) (handler : exn -> M A)
  : M A :=
  fun w =>
    match m w with
    | (w', Raise e) => if class e then handler e w' else (w', Raise e)
    | r => r
    end.

Definition log (lv : level) (msg : message) : M unit :=
  fun w => (set_logged (logged w ++ [(lv, msg)]) w, Return tt).

(** A call to the remote store: recorded, and answered by the client. *)
Definition call (client : CogniteClient) (r : request) : M unit :=
  fun w =>
    (set_posted (posted w ++ [r]) w,
     if fails client (posted w) r then Raise APIError else Return tt).

Definition get_cache : M (gmap string string) :=
  fun w => (w, Return (time_series_cache w)).

Definition cache_store (k v : string) : M unit :=
  fun w => (set_time_series_cache (<[k := v]> (time_series_cache w)) w, Return tt).

Definition update_prometheus (f : Prometheus -> Prometheus) : M unit :=
  fun w => (set_prometheus (f (prometheus w)) w, Return tt).

Definition inc_time_series_gauge (p : Prometheus) : Prometheus :=
  mkPrometheus (S (time_series_gauge p)) (time_series_data_points_gauge p)
               (all_data_points_gauge p) (pushed p).

Definition inc_time_series_data_points_gauge (external_id : string) (n : nat)
    (p : Prometheus) : Prometheus :=
  mkPrometheus (time_series_gauge p)
               (<[external_id :=
                   (default 0 (time_series_data_points_gauge p !! external_id) + n)%nat]>
                  (time_series_data_points_gauge p))
               (all_data_points_gauge p) (pushed p).

Definition inc_all_data_points_gauge (n : nat) (p : Prometheus) : Prometheus :=
  mkPrometheus (time_series_gauge p) (time_series_data_points_gauge p)
               (all_data_points_gauge p + n)%nat (pushed p).

Definition push_to_server (p : Prometheus) : Prometheus :=
  mkPrometheus (time_series_gauge p) (time_series_data_points_gauge p)
               (all_data_points_gauge p) (S (pushed p)).

(** ** The script *)

Definition BATCH_MAX : nat := 1000.

(** Call [func], then log if an exception was raised. *)
Definition _log_error {A} (func : M A) : M (option A) :=
  try_except (a <- func ;; ret (Some a)) is_Exception
             (fun error => log INFO (MsgExn error) ;; ret None).

(** [pandas.notnull] *)
Definition notnull (c : cell) : bool :=
  match c with
  | CNull => false
  | CStr _ => true
  | CNum f => negb (PyNum.is_nan f)
  end.

(** [float(value_string.replace(",", "."))]: only a [str] has [replace]. *)
Definition convert_float (value_string : cell) : outcome pyfloat :=
  match value_string with
  | CStr s =>
      match PyNum.float_of_str (PyStr.replace "," "." s) with
      | Some v => Return v
      | None => Raise ValueError
      end
  | _ => Raise AttributeError
  end.

(** The loop of [create_data_points], from position [i] on. *)
Fixpoint create_data_points_from (i : nat) (values : list cell)
    (timestamps : list Z) (data_points : list Datapoint) : M (list Datapoint) :=
  match values with
  | [] => ret data_points
  | value_string :: values' =>
      if notnull value_string then
        match convert_float value_string with
        | Raise ValueError =>
            log INFO (MsgExn ValueError) ;;
            create_data_points_from (S i) values' timestamps data_points
        | Raise error => raise error
        | Return v =>
            match timestamps !! i with
            | Some t =>
                create_data_points_from (S i) values' timestamps
                  (data_points ++ [mkDatapoint t v])
            | None => raise IndexError
            end
        end
      else create_data_points_from (S i) values' timestamps data_points
  end.

Definition create_data_points (values : list cell) (timestamps : list Z)
  : M (list Datapoint) :=
  create_data_points_from 0 values timestamps [].

(** [int(o)] for an index entry. *)
Definition py_int (o : index_value) : outcome Z :=
  match o with
  | IdxInt z => Return z
  | IdxFloat f => PyNum.int_of_float f
  | IdxStr s => PyNum.int_of_str s
  end.

(** [[int(o) * 1000 for o in df.index.tolist()]] *)
Fixpoint timestamps_of (idx : list index_value) : outcome (list Z) :=
  match idx with
  | [] => Return []
  | o :: idx' =>
      match py_int o with
      | Raise e => Raise e
      | Return z =>
          match timestamps_of idx' with
          | Raise e => Raise e
          | Return l => Return (z * 1000 :: l)
          end
      end
  end.

(** [col.rpartition(":")[2].strip()] *)
Definition name_of (col : string) : string :=
  PyStr.strip (PyStr.rpartition ":" col).2.

(** [col.rpartition(":")[0].strip()] *)
Definition external_id_of (col : string) : string :=
  PyStr.strip (PyStr.rpartition ":" col).1.1.

Definition new_time_series (col : string) : TimeSeries :=
  mkTimeSeries (name_of col)
               "Auto-generated time series, external ID not found"
               (external_id_of col).

(** [pandas.read_csv(csv_path, ...)]: a missing file raises. *)
Definition pandas_read_csv (csv_path : string) : M DataFrame :=
  fun w =>
    match folder w !! csv_path with
    | Some f => (w, read_csv f)
    | None => (w, Raise IOError)
    end.

(** The body of the loop over the columns, on the locals
    [current_time_series] and [count_of_data_points]. *)
Definition process_column (client : CogniteClient) (timestamps : list Z)
    (col : string * list cell)
    (locals : list TimeseriesWithDatapoints * nat)
  : M (list TimeseriesWithDatapoints * nat) :=
  let '(current_time_series, count_of_data_points) := locals in
  current_time_series <-
    (if (BATCH_MAX <=? length current_time_series)%nat
     then _log_error (call client (PostDatapoints current_time_series)) ;;
          ret []
     else ret current_time_series) ;;
  let name := name_of col.1 in
  let external_id := external_id_of col.1 in
  existing_time_series <- get_cache ;;
  match existing_time_series !! external_id with
  | None =>
      _log_error (call client (PostTimeSeries [new_time_series col.1])) ;;
      cache_store external_id name ;;
      update_prometheus inc_time_series_gauge ;;
      update_prometheus push_to_server
  | Some _ => ret tt
  end ;;
  data_points <- create_data_points col.2 timestamps ;;
  match data_points with
  | [] => ret (current_time_series, count_of_data_points)
  | _ =>
      existing_time_series <- get_cache ;;
      match existing_time_series !! external_id with
      | None => raise KeyError
      | Some registered =>
          update_prometheus
            (inc_time_series_data_points_gauge external_id (length data_points)) ;;
          ret (current_time_series
                 ++ [mkTimeseriesWithDatapoints registered data_points],
               (count_of_data_points + length data_points)%nat)
      end
  end.

Fixpoint process_columns (client : CogniteClient) (timestamps : list Z)
    (cols : list (string * list cell))
    (locals : list TimeseriesWithDatapoints * nat)
  : M (list TimeseriesWithDatapoints * nat) :=
  match cols with
  | [] => ret locals
  | col :: cols' =>
      locals' <- process_column client timestamps col locals ;;
      process_columns client timestamps cols' locals'
  end.

(** Find datapoints inside a single csv file and send it to CDP.  The last
    statement is [sys.exit(2)]. *)
Definition process_csv_file (client : CogniteClient) (csv_path : string)
  : M unit :=
  df <- pandas_read_csv csv_path ;;
  timestamps <- lift (timestamps_of (index df)) ;;
  locals <- process_columns client timestamps (columns df) ([], 0%nat) ;;
  match locals.1 with
  | [] => ret None
  | current_time_series =>
      _log_error (call client (PostDatapoints current_time_series))
  end ;;
  log INFO (MsgProcessed locals.2 csv_path) ;;
  update_prometheus (inc_all_data_points_gauge locals.2) ;;
  update_prometheus push_to_server ;;
  raise (SystemExit 2).

(** [path.unlink()] *)
Definition unlink (path : string) : M unit :=
  fun w =>
    match folder w !! path with
    | Some _ => (set_folder (delete path (folder w)) w, Return tt)
    | None => (w, Raise IOError)
    end.

(** [failed_path.mkdir(parents=True, exist_ok=True)]: raises when a file
    of that name is in the way. *)
Definition mkdir_failed : M unit :=
  fun w =>
    match failed_folder w with
    | Some _ => (w, Return tt)
    | None =>
        match folder w !! "failed" with
        | Some _ => (w, Raise IOError)
        | None => (set_failed_folder (Some ∅) w, Return tt)
        end
    end.

(** [path.replace(failed_path.joinpath(path.name))] *)
Definition replace_into_failed (path : string) : M unit :=
  fun w =>
    match folder w !! path, failed_folder w with
    | Some f, Some d =>
        (set_failed_folder (Some (<[path := f]> d))
           (set_folder (delete path (folder w)) w), Return tt)
    | _, _ => (w, Raise IOError)
    end.

(** [try: m  except <class> as exc: handler exc  else: orelse] *)
Definition try_except_else {A B} (m : M A) (class : exn -> bool)
    (handler : exn -> M B) (orelse : M B) : M B :=
  fun w =>
    match m w with
    | (w', Raise e) => if class e then handler e w' else (w', Raise e)
    | (w', Return _) => orelse w'
    end.

(** Process one csv file at a time, and either delete it or possibly move
    it when done.  [failed_path] is [true] when the argument of that name is
    not [None]; it is then the subfolder failed/ of the input folder. *)
Fixpoint process_files (client : CogniteClient) (paths : list string)
    (failed_path : bool) : M unit :=
  match paths with
  | [] => ret tt
  | path :: paths' =>
      try_except
        (try_except_else
           (process_csv_file client path)
           is_Exception
           (fun exc =>
              log ERROR (MsgParsingFailed path exc) ;;
              if failed_path
              then mkdir_failed ;; replace_into_failed path
              else ret tt)
           (unlink path))
        is_IOError
        (fun exc => log ERROR (MsgDeleteMoveFailed path exc)) ;;
      process_files client paths' failed_path
  end.

(** [sorted(l, reverse=...)] by insertion, stable as Python's sort is:
    elements that compare equal keep their order, also when reversed. *)
Section Sorting.
Context {A : Type} (le : A -> A -> bool).

Fixpoint insert_by (x : A) (l : list A) : list A :=
  match l with
  | [] => [x]
  | y :: l' => if le x y then x :: l else y :: insert_by x l'
  end.

Definition sort_by (l : list A) : list A := foldr insert_by [] l.
End Sorting.

Definition sorted {A : Type} (le : A -> A -> bool) (reverse : bool)
    (l : list A) : list A :=
  sort_by (fun a b => if reverse then le b a else le a b) l.

(** [folder_path.glob("*.csv")], in the order the directory yields. *)
Definition glob_csv (w : world) : list (string * file) :=
  List.filter (fun p => PyStr.endswith p.1 ".csv") (map_to_list (folder w)).

(** The loop of [find_files_in_path] over the globbed entries. *)
Fixpoint relevant_paths (entries : list (string * file))
    (after_timestamp before_timestamp : Z) (all_relevant_paths : list string)
  : M (list string) :=
  match entries with
  | [] => ret all_relevant_paths
  | (path, f) :: entries' =>
      match stat_mtime f with
      | None =>
          log ERROR (MsgStatFailed path IOError) ;;
          relevant_paths entries' after_timestamp before_timestamp
            all_relevant_paths
      | Some modified_timestamp =>
          if PyNum.Qltb (inject_Z after_timestamp) modified_timestamp
             && PyNum.Qltb modified_timestamp (inject_Z before_timestamp)
          then relevant_paths entries' after_timestamp before_timestamp
                 (all_relevant_paths ++ [path])
          else relevant_paths entries' after_timestamp before_timestamp
                 all_relevant_paths
      end
  end.

(** Return csv files in the input folder sorted by [newest_first].  POSIX
    paths of one folder compare as their names do, character by
    character. *)
Definition find_files_in_path (after_timestamp : Z) (limit : option nat)
    (newest_first : bool) : M (list string) :=
  fun w =>
    let before_timestamp := PyNum.int_of_Q (now w - inject_Z 2)%Q in
    (all_relevant_paths <-
       relevant_paths (glob_csv w) after_timestamp before_timestamp [] ;;
     let paths := sorted String.leb newest_first all_relevant_paths in
     ret (match limit with
          | None | Some O => paths
          | Some n => take n paths
          end))
      (set_scanned (scanned w ++ [after_timestamp]) w).

Definition is_KeyboardInterrupt (e : exn) : bool :=
  match e with KeyboardInterrupt => true | _ => false end.

Section Driver.
(** What happens around the script while it sleeps in a cycle of live
    mode: files come and go and time passes; the user may interrupt. *)
Variable surroundings : nat -> gmap string file * Q -> gmap string file * Q.
Variable interrupted : nat -> bool.

(** [time.sleep(3)] in the given cycle. *)
Definition sleep (cycle : nat) : M unit :=
  fun w =>
    let '(f, t) := surroundings cycle (folder w, now w) in
    (mkWorld f (failed_folder w) t (time_series_cache w) (posted w)
             (logged w) (prometheus w) (scanned w),
     if interrupted cycle then Raise KeyboardInterrupt else Return tt).

(** [while True: ...], for at most [fuel] cycles; [None] when the loop is
    still running after them. *)
Fixpoint live_loop (client : CogniteClient) (start_timestamp : Z)
    (failed_path : bool) (fuel cycle : nat) : M (option unit) :=
  match fuel with
  | O => ret None
  | S fuel' =>
      paths <- find_files_in_path start_timestamp (Some 20%nat) true ;;
      match paths with
      | [] => ret tt
      | _ => process_files client paths failed_path
      end ;;
      sleep cycle ;;
      live_loop client start_timestamp failed_path fuel' (S cycle)
  end.

(** Find datapoints in files in the input folder and send them to CDP. *)
Definition extract_data_points (client : CogniteClient) (live_mode : bool)
    (start_timestamp : Z) (failed_path : bool) (fuel : nat)
  : M (option unit) :=
  try_except
    (if live_mode
     then live_loop client start_timestamp failed_path fuel 0
     else
       paths <- find_files_in_path start_timestamp None false ;;
       match paths with
       | [] => log INFO MsgNoFiles
       | _ => process_files client paths failed_path
       end ;;
       log INFO MsgExtractionComplete ;;
       ret (Some tt))
    is_KeyboardInterrupt
    (fun _ => log WARNING MsgExtractorStopped ;; ret (Some tt)).
End Driver.

(** ** The scanner of the prototype script

    [datapoints-csv-extractor.py] does not parse as Python (an [else if]
    at its line 106) and its live loop reads a local before assigning it;
    its scanner is embedded as written, to compare the orderings. *)

Module Prototype.

Definition Qleb (x y : Q) : bool := negb (PyNum.Qltb y x).

(** [[(p, p.stat().st_mtime) for p in Path(base_path).glob("*.csv")]];
    a failing [stat] is not caught here. *)
Fixpoint stat_all (entries : list (string * file))
  : outcome (list (string * Q)) :=
  match entries with
  | [] => Return []
  | (p, f) :: entries' =>
      match stat_mtime f with
      | None => Raise IOError
      | Some mtime =>
          match stat_all entries' with
          | Return l => Return ((p, mtime) :: l)
          | Raise e => Raise e
          end
      end
  end.

Definition find_new_files (last_mtime : Q) : M (list string) :=
  fun w =>
    match stat_all (glob_csv w) with
    | Raise e => (w, Raise e)
    | Return paths =>
        let paths := sorted (fun a b => Qleb a.2 b.2) true paths in
        (w, Return (map fst
                      (List.filter (fun a => PyNum.Qltb last_mtime a.2) paths)))
    end.

End Prototype.

(** ** Vocabulary of the statements *)

(** The data point a cell gives at timestamp [t], if any. *)
Definition point_of (c : cell) (t : Z) : option Datapoint :=
  match c with
  | CStr s => mkDatapoint t <$> PyNum.float_of_str (PyStr.replace "," "." s)
  | _ => None
  end.

Definition points_of (values : list cell) (timestamps : list Z)
  : list Datapoint :=
  omap (fun p => point_of p.1 p.2) (zip values timestamps).

(** A cell of a column of dtype object: a string or a null. *)
Definition str_or_null (c : cell) : Prop :=
  match c with
  | CNum _ => False
  | _ => True
  end.

(** A cell that is null, or a string [float] rejects. *)
Definition barren (c : cell) : Prop :=
  match c with
  | CNull => True
  | CStr s => PyNum.float_of_str (PyStr.replace "," "." s) = None
  | CNum _ => False
  end.

(** [create_data_points values timestamps] returns [dps], whatever the
    world, and only writes to the log. *)
Definition yields (values : list cell) (timestamps : list Z)
    (dps : list Datapoint) : Prop :=
  forall w, exists lg,
    create_data_points values timestamps w
    = (set_logged (logged w ++ lg) w, Return dps).

(** A column that gives at least one data point. *)
Definition productive (timestamps : list Z) (col : string * list cell) : Prop :=
  exists dps, dps <> [] /\ yields col.2 timestamps dps.

(** The payloads of the append calls among some calls. *)
Definition datapoint_posts (l : list request)
  : list (list TimeseriesWithDatapoints) :=
  omap (fun r => match r with PostDatapoints p => Some p | _ => None end) l.

Definition contains (c : ascii) (s : string) : bool :=
  existsb (Ascii.eqb c) (list_ascii_of_string s).

(** [m] relates every world to the one it leaves, and what it returns
    satisfies [post]. *)
Definition keeps {A} (R : relation world) (m : M A) (post : A -> Prop) : Prop :=
  forall w, R w (m w).1 /\
            match (m w).2 with
            | Return a => post a
            | Raise _ => True
            end.

(** The scans made between the two worlds all had [start] as their
    [after_timestamp]. *)
Definition scans_since (start : Z) : relation world :=
  fun w w' => exists k, scanned w' = scanned w ++ replicate k start.

Definition same_folder : relation world :=
  fun w w' => folder w' = folder w.

(** The append calls issued between the two worlds all satisfy [ok]. *)
Definition posts_since (ok : list TimeseriesWithDatapoints -> Prop)
  : relation world :=
  fun w w' => exists new, posted w' = posted w ++ new
                          /\ Forall ok (datapoint_posts new).

Definition mtime_of (w : world) (path : string) : option Q :=
  f ← folder w !! path; stat_mtime f.

(** A world with an empty input folder, for examples. *)
Definition quiet_world : world :=
  mkWorld ∅ None (1000 # 1) ∅ [] [] (mkPrometheus 0 ∅ 0 0) [].

(** An append call carries at least one and at most [BATCH_MAX] series
    entries. *)
Definition payload_ok (p : list TimeseriesWithDatapoints) : Prop :=
  p <> [] /\ (length p <= BATCH_MAX)%nat.

(** The file's modification time lies strictly between the two bounds. *)
Definition in_window (after_timestamp before_timestamp : Z) (f : file) : bool :=
  match stat_mtime f with
  | Some m =>
      PyNum.Qltb (inject_Z after_timestamp) m
      && PyNum.Qltb m (inject_Z before_timestamp)
  | None => false
  end.

(** Worlds, clients and files for examples. *)
Module Examples.
Definition ok_client : CogniteClient := mkClient (fun _ _ => false).

(** A store that refuses every registration. *)
Definition refusing_client : CogniteClient :=
  mkClient (fun _ r => match r with PostTimeSeries _ => true | _ => false end).

Definition good_frame : DataFrame :=
  mkDataFrame [IdxInt 1550076300; IdxInt 1550076301]
              [("PT100:flow", [CStr "12,5"; CNull])].

Definition good_file (mtime : Q) : file :=
  mkFile (Some mtime) (Return good_frame).

Definition bad_file (mtime : Q) : file :=
  mkFile (Some mtime) (Raise OtherError).

Definition world_of (fo : gmap string file) (t : Q) : world :=
  mkWorld fo None t ∅ [] [] (mkPrometheus 0 ∅ 0 0) [].

(** Three seconds pass in each sleep; a file that does not parse arrives
    in the first and in the second. *)
Definition arrivals (cycle : nat) (s : gmap string file * Q)
  : gmap string file * Q :=
  let t := (s.2 + inject_Z 3)%Q in
  match cycle with
  | 0%nat => (<["f0.csv" := bad_file s.2]> s.1, t)
  | 1%nat => (<["f1.csv" := bad_file s.2]> s.1, t)
  | _ => (s.1, t)
  end.
End Examples.

(** ** The listing of the series at start-up *)

(** An item of [res.to_json()]: the name of a series and its metadata. *)
Record series_json : Type := mkSeriesJson {
  js_name : string;
  js_metadata : gmap string string
}.

Definition is_APIError (e : exn) : bool :=
  match e with APIError => true | _ => false end.

(** [time.sleep(seconds)] before the driver runs: time passes. *)
Definition pause (seconds : Z) : M unit :=
  fun w =>
    (mkWorld (folder w) (failed_folder w) (now w + inject_Z seconds)%Q
             (time_series_cache w) (posted w) (logged w) (prometheus w)
             (scanned w),
     Return tt).

(** [{i["metadata"]["externalID"]: i["name"] for i in items
     if "externalID" in i["metadata"]}]: a later item replaces an earlier
    one of the same external identifier. *)
Definition by_external_id (items : list series_json) : gmap string string :=
  fold_left
    (fun d i =>
       match js_metadata i !! "externalID" with
       | Some k => <[k := js_name i]> d
       | None => d
       end)
    items ∅.

(** The loop [for i in range(10)] of [get_all_time_series], at pass [i]
    with [attempts] passes left.  [get_time_series i] is what the call
    [client.time_series.get_time_series(...)] of pass [i] gives.  The two log
    lines are recorded by their level and the exception at hand. *)
Fixpoint fetch_time_series (get_time_series : nat -> outcome (list series_json))
    (attempts i : nat) : M (list series_json) :=
  match attempts with
  | O => log FATAL (MsgExn (SystemExit 1)) ;; raise (SystemExit 1)
  | S attempts' =>
      try_except (lift (get_time_series i)) is_APIError
        (fun exc =>
           log ERROR (MsgExn exc) ;;
           pause (Z.of_nat i) ;;
           fetch_time_series get_time_series attempts' (S i))
  end.

(** Return map of timeseries externalId -> name of all timeseries that
    has externalId. *)
Definition get_all_time_series
    (get_time_series : nat -> outcome (list series_json))
  : M (gmap string string) :=
  res <- fetch_time_series get_time_series 10 0 ;;
  ret (by_external_id res).

(** ** The delivery of the prototype script *)

Module PrototypePost.

(** The loop over the cells in [post_datapoints]: in
    [Datapoint(timestamp=timestamps[i], value=convert_float(value))] the
    timestamp is looked up first, and nothing catches what
    [convert_float] raises. *)
Fixpoint data_points_from (i : nat) (values : list cell) (timestamps : list Z)
    (data_points : list Datapoint) : outcome (list Datapoint) :=
  match values with
  | [] => Return data_points
  | value :: values' =>
      if notnull value then
        match timestamps !! i with
        | None => Raise IndexError
        | Some t =>
            match convert_float value with
            | Return v =>
                data_points_from (S i) values' timestamps
                  (data_points ++ [mkDatapoint t v])
            | Raise e => Raise e
            end
        end
      else data_points_from (S i) values' timestamps data_points
  end.

(** The inner function [post_datapoints()]: the call is not guarded, and
    the buffer is emptied after it. *)
Definition post (client : CogniteClient)
    (current_time_series : list TimeseriesWithDatapoints)
  : M (list TimeseriesWithDatapoints) :=
  call client (PostDatapoints current_time_series) ;; ret [].

(** The body of the loop over the columns; [existing_timeseries] is the
    set of the names of the series of the store. *)
Definition column_body (client : CogniteClient)
    (existing_timeseries : gset string) (timestamps : list Z)
    (col : string * list cell)
    (locals : list TimeseriesWithDatapoints * nat)
  : M (list TimeseriesWithDatapoints * nat) :=
  let '(current_time_series, count_of_data_points) := locals in
  current_time_series <-
    (if (BATCH_MAX <=? length current_time_series)%nat
     then post client current_time_series
     else ret current_time_series) ;;
  let name := name_of col.1 in
  if bool_decide (name ∈ existing_timeseries) then
    data_points <- lift (data_points_from 0 col.2 timestamps []) ;;
    match data_points with
    | [] => ret (current_time_series, count_of_data_points)
    | _ =>
        ret (current_time_series
               ++ [mkTimeseriesWithDatapoints name data_points],
             (count_of_data_points + length data_points)%nat)
    end
  else ret (current_time_series, count_of_data_points).

Fixpoint columns_loop (client : CogniteClient)
    (existing_timeseries : gset string) (timestamps : list Z)
    (cols : list (string * list cell))
    (locals : list TimeseriesWithDatapoints * nat)
  : M (list TimeseriesWithDatapoints * nat) :=
  match cols with
  | [] => ret locals
  | col :: cols' =>
      locals' <- column_body client existing_timeseries timestamps col
                             locals ;;
      columns_loop client existing_timeseries timestamps cols' locals'
  end.

(** The loop over the paths; the buffer lives across the files. *)
Fixpoint paths_loop (client : CogniteClient)
    (existing_timeseries : gset string) (paths : list string)
    (current_time_series : list TimeseriesWithDatapoints)
  : M (list TimeseriesWithDatapoints) :=
  match paths with
  | [] => ret current_time_series
  | path :: paths' =>
      df <- pandas_read_csv path ;;
      timestamps <- lift (timestamps_of (index df)) ;;
      locals <- columns_loop client existing_timeseries timestamps
                             (columns df) (current_time_series, 0%nat) ;;
      current_time_series <-
        match locals.1 with
        | [] => ret []
        | current_time_series => post client current_time_series
        end ;;
      log INFO (MsgProcessed locals.2 path) ;;
      paths_loop client existing_timeseries paths' current_time_series
  end.

(** [path.stat().st_mtime] *)
Definition stat (path : string) : M Q :=
  fun w =>
    match mtime_of w path with
    | Some m => (w, Return m)
    | None => (w, Raise IOError)
    end.

(** [max(path.stat().st_mtime for path in paths)], the largest so far being
    [best]; [max] of nothing raises [ValueError]. *)
Fixpoint max_mtime (paths : list string) (best : option Q) : M Q :=
  match paths with
  | [] =>
      match best with
      | Some m => ret m
      | None => raise ValueError
      end
  | path :: paths' =>
      m <- stat path ;;
      max_mtime paths'
        (match best with
         | Some b => if PyNum.Qltb b m then Some m else Some b
         | None => Some m
         end)
  end.

(** [post_datapoints(client, paths, existing_timeseries)]: returns the
    timestamp of the most recently modified path. *)
Definition post_datapoints (client : CogniteClient) (paths : list string)
    (existing_timeseries : gset string) : M Q :=
  paths_loop client existing_timeseries paths [] ;;
  max_mtime paths None.

End PrototypePost.

(** ** Vocabulary of further statements *)

(** The data points held by some series entries, and those sent by the
    append calls among some calls. *)
Definition points_in (l : list TimeseriesWithDatapoints) : nat :=
  sum_list_with (fun e => length (datapoints e)) l.

Definition points_sent (l : list request) : nat :=
  sum_list_with points_in (datapoint_posts l).

(** A column of dtype object that is not longer than the index. *)
Definition object_column (timestamps : list Z) (col : string * list cell)
  : Prop :=
  Forall str_or_null col.2 /\ (length col.2 <= length timestamps)%nat.

(** The external identifiers some calls register. *)
Definition registered_ids (l : list request) : list string :=
  flat_map (fun r => match r with
                     | PostTimeSeries ts => map metadata_externalID ts
                     | PostDatapoints _ => []
                     end) l.

(** Between the two worlds each external identifier is registered at most
    once, only when it was not cached, and is cached afterwards; entries of
    the cache stay as they are. *)
Definition registry_grows : relation world :=
  fun w w' =>
    exists new,
      posted w' = posted w ++ new
      /\ NoDup (registered_ids new)
      /\ (forall id, id ∈ registered_ids new ->
                     time_series_cache w !! id = None
                     /\ is_Some (time_series_cache w' !! id))
      /\ (forall id nm, time_series_cache w !! id = Some nm ->
                        time_series_cache w' !! id = Some nm).

(** The file of that name in the subfolder failed/, if any. *)
Definition failed_lookup (w : world) (path : string) : option file :=
  d ← failed_folder w; d !! path.

(** Between the two worlds no file is deleted or changed: a file of the
    input folder is still there or has moved to failed/, and nothing else
    changes in either folder. *)
Definition files_kept : relation world :=
  fun w w' =>
    forall path,
      match folder w !! path with
      | None =>
          folder w' !! path = None
          /\ failed_lookup w' path = failed_lookup w path
      | Some f =>
          (folder w' !! path = Some f
           /\ failed_lookup w' path = failed_lookup w path)
          \/ (folder w' !! path = None /\ failed_lookup w' path = Some f)
      end.

(** The two folders are the same in both worlds. *)
Definition same_files : relation world :=
  fun w w' => folder w' = folder w /\ failed_folder w' = failed_folder w.

(** Reading a file of the folder raises nothing but an [Exception], as
    pandas does. *)
Definition reads_raise_exceptions (fo : gmap string file) : Prop :=
  forall path f e,
    fo !! path = Some f -> read_csv f = Raise e -> is_Exception e = true.

(** A cell that is null or a string [float] accepts. *)
Definition null_or_float (c : cell) : Prop :=
  match c with
  | CNull => True
  | CStr s => is_Some (PyNum.float_of_str (PyStr.replace "," "." s))
  | CNum _ => False
  end.

(** ** Python strings and numbers: lemmas *)

Lemma list_ascii_of_string_app (a b : string) :
  list_ascii_of_string (a ++ b)%string
  = list_ascii_of_string a ++ list_ascii_of_string b.
Proof. induction a as [|c a IH]; simpl; [done | by rewrite IH]. Qed.

Lemma rsplit1_none sep l :
  existsb (Ascii.eqb sep) l = false -> PyStr.rsplit1 sep l = None.
Proof.
  induction l as [|c l IH]; simpl; [done |].
  intros H. apply orb_false_iff in H as [Hc Hl].
  rewrite (IH Hl). rewrite Ascii.eqb_sym in Hc. by rewrite Hc.
Qed.

Lemma rsplit1_last sep p n :
  existsb (Ascii.eqb sep) n = false ->
  PyStr.rsplit1 sep (p ++ sep :: n) = Some (p, n).
Proof.
  intros Hn. induction p as [|c p IH]; simpl.
  - by rewrite (rsplit1_none _ _ Hn), Ascii.eqb_refl.
  - by rewrite IH.
Qed.

Lemma rpartition_last (prefix nm : string) :
  contains ":" nm = false ->
  PyStr.rpartition ":" (prefix ++ ":" ++ nm)%string = (prefix, ":", nm).
Proof.
  intros Hn. unfold PyStr.rpartition.
  rewrite list_ascii_of_string_app. simpl.
  rewrite (rsplit1_last _ _ _ Hn).
  by rewrite !string_of_list_ascii_of_string.
Qed.

Lemma rpartition_none (s : string) :
  contains ":" s = false -> PyStr.rpartition ":" s = ("", "", s).
Proof.
  intros Hn. unfold PyStr.rpartition. by rewrite (rsplit1_none _ _ Hn).
Qed.

Lemma Qltb_lt (x y : Q) : PyNum.Qltb x y = true <-> (x < y)%Q.
Proof. unfold PyNum.Qltb, Qlt. apply Z.ltb_lt. Qed.

(** ** The cell parser *)

Lemma set_logged_nil w : set_logged (logged w ++ []) w = w.
Proof. destruct w. unfold set_logged. simpl. by rewrite app_nil_r. Qed.

Lemma set_logged_app w l1 l2 :
  set_logged (logged (set_logged (logged w ++ l1) w) ++ l2)
             (set_logged (logged w ++ l1) w)
  = set_logged (logged w ++ (l1 ++ l2)) w.
Proof. destruct w. unfold set_logged. simpl. by rewrite app_assoc. Qed.

Lemma create_data_points_from_object values :
  forall i timestamps acc w,
    Forall str_or_null values ->
    (i + length values <= length timestamps)%nat ->
    exists lg,
      create_data_points_from i values timestamps acc w
      = (set_logged (logged w ++ lg) w,
         Return (acc ++ points_of values (drop i timestamps))).
Proof.
  induction values as [|c values IH]; intros i timestamps acc w Hobj Hlen.
  - exists []. simpl. unfold ret, points_of. simpl.
    by rewrite set_logged_nil, app_nil_r.
  - apply Forall_cons in Hobj as [Hc Hobj]. simpl in Hlen.
    destruct (lookup_lt_is_Some_2 timestamps i) as [t Ht]; [lia |].
    rewrite (drop_S _ _ _ Ht).
    assert (Hlen' : (S i + length values <= length timestamps)%nat) by lia.
    destruct c as [|s|f]; [| |done]; simpl.
    + destruct (IH (S i) timestamps acc w Hobj Hlen') as [lg Hlg].
      exists lg. by rewrite Hlg.
    + unfold points_of. simpl.
      destruct (PyNum.float_of_str (PyStr.replace "," "." s)) as [v|]; simpl.
      * rewrite Ht.
        destruct (IH (S i) timestamps (acc ++ [mkDatapoint t v]) w Hobj Hlen')
          as [lg Hlg].
        exists lg. rewrite Hlg. by rewrite <- app_assoc.
      * unfold bind, log. simpl.
        destruct (IH (S i) timestamps acc
                     (set_logged (logged w ++ [(INFO, MsgExn ValueError)]) w)
                     Hobj Hlen') as [lg Hlg].
        exists ((INFO, MsgExn ValueError) :: lg).
        rewrite Hlg. by rewrite set_logged_app.
Qed.

Lemma create_data_points_object values timestamps :
  Forall str_or_null values ->
  (length values <= length timestamps)%nat ->
  yields values timestamps (points_of values timestamps).
Proof.
  intros Hobj Hlen w. unfold create_data_points.
  destruct (create_data_points_from_object values 0 timestamps [] w Hobj)
    as [lg Hlg]; [simpl; lia |].
  exists lg. by rewrite Hlg.
Qed.

Lemma create_data_points_from_barren values :
  forall i timestamps acc w,
    Forall barren values ->
    exists lg,
      create_data_points_from i values timestamps acc w
      = (set_logged (logged w ++ lg) w, Return acc).
Proof.
  induction values as [|c values IH]; intros i timestamps acc w Hb.
  - exists []. simpl. unfold ret. by rewrite set_logged_nil.
  - apply Forall_cons in Hb as [Hc Hb].
    destruct c as [|s|f]; [| |done]; simpl.
    + apply IH, Hb.
    + simpl in Hc. rewrite Hc. unfold bind, log. simpl.
      destruct (IH (S i) timestamps acc
                   (set_logged (logged w ++ [(INFO, MsgExn ValueError)]) w) Hb)
        as [lg Hlg].
      exists ((INFO, MsgExn ValueError) :: lg).
      rewrite Hlg. by rewrite set_logged_app.
Qed.

Lemma create_data_points_barren values timestamps :
  Forall barren values -> yields values timestamps [].
Proof. intros Hb w. apply create_data_points_from_barren, Hb. Qed.

Lemma points_of_lookup values :
  forall timestamps dp,
    dp ∈ points_of values timestamps ->
    exists i s,
      values !! i = Some (CStr s)
      /\ timestamps !! i = Some (timestamp dp)
      /\ PyNum.float_of_str (PyStr.replace "," "." s) = Some (value dp).
Proof.
  induction values as [|c values IH]; intros timestamps dp Hin.
  - unfold points_of in Hin. simpl in Hin. by apply elem_of_nil in Hin.
  - destruct timestamps as [|t timestamps].
    { unfold points_of in Hin. simpl in Hin. by apply elem_of_nil in Hin. }
    unfold points_of in Hin. simpl in Hin.
    destruct (point_of c t) as [d|] eqn:Hp.
    + apply elem_of_cons in Hin as [->|Hin].
      * destruct c as [|s|f]; simpl in Hp; try done.
        destruct (PyNum.float_of_str (PyStr.replace "," "." s)) as [v|] eqn:Hv;
          simpl in Hp; [|done].
        injection Hp as <-. by exists 0%nat, s.
      * destruct (IH timestamps dp Hin) as (i & s & H1 & H2 & H3).
        by exists (S i), s.
    + destruct (IH timestamps dp Hin) as (i & s & H1 & H2 & H3).
      by exists (S i), s.
Qed.

Lemma points_of_sublist values :
  forall timestamps,
    (timestamp <$> points_of values timestamps) `sublist_of` timestamps.
Proof.
  induction values as [|c values IH]; intros timestamps.
  - apply sublist_nil_l.
  - destruct timestamps as [|t timestamps]; [apply sublist_nil_l |].
    unfold points_of. simpl.
    destruct (point_of c t) as [d|] eqn:Hp.
    + assert (timestamp d = t) as <-.
      { destruct c as [|s|f]; simpl in Hp; try done.
        destruct (PyNum.float_of_str _); simpl in Hp; [|done].
        by injection Hp as <-. }
      simpl. apply sublist_skip, IH.
    + apply sublist_cons, IH.
Qed.

Lemma points_of_complete values :
  forall timestamps i s v t,
    values !! i = Some (CStr s) ->
    PyNum.float_of_str (PyStr.replace "," "." s) = Some v ->
    timestamps !! i = Some t ->
    mkDatapoint t v ∈ points_of values timestamps.
Proof.
  induction values as [|c values IH]; intros timestamps i s v t Hc Hv Ht;
    [done |].
  destruct timestamps as [|t0 timestamps]; [done |].
  unfold points_of. simpl.
  destruct i as [|i]; simpl in Hc, Ht.
  - injection Hc as ->. injection Ht as ->. simpl. rewrite Hv. simpl.
    apply elem_of_cons. by left.
  - specialize (IH timestamps i s v t Hc Hv Ht).
    destruct (point_of c t0); [apply elem_of_cons; by right | done].
Qed.

Lemma StronglySorted_sublist {A} (R : relation A) (l1 l2 : list A) :
  l1 `sublist_of` l2 -> StronglySorted R l2 -> StronglySorted R l1.
Proof.
  induction 1 as [|x l1 l2 Hsub IH|x l1 l2 Hsub IH]; intros Hs.
  - constructor.
  - apply StronglySorted_inv in Hs as [Hs Hx]. constructor; [by apply IH |].
    apply Forall_forall. intros y Hy.
    eapply Forall_forall in Hx; [exact Hx |]. by eapply elem_of_sublist.
  - apply StronglySorted_inv in Hs as [Hs _]. by apply IH.
Qed.

Lemma Sorted_le_sublist (l1 l2 : list Z) :
  l1 `sublist_of` l2 -> Sorted Z.le l2 -> Sorted Z.le l1.
Proof.
  intros Hsub Hs. apply StronglySorted_Sorted.
  eapply StronglySorted_sublist; [exact Hsub |].
  apply Sorted_StronglySorted; [|done]. intros x y z. apply Z.le_trans.
Qed.

Lemma timestamps_of_lookup idx :
  forall timestamps i t,
    timestamps_of idx = Return timestamps ->
    timestamps !! i = Some t ->
    exists o k, idx !! i = Some o /\ py_int o = Return k /\ t = k * 1000.
Proof.
  induction idx as [|o idx IH]; intros timestamps i t Hts Ht; simpl in Hts.
  - injection Hts as <-. done.
  - destruct (py_int o) as [k|] eqn:Hk; [|done].
    destruct (timestamps_of idx) as [l|] eqn:Hl; [|done].
    injection Hts as <-. destruct i as [|i]; simpl in Ht.
    + injection Ht as <-. by exists o, k.
    + destruct (IH l i t eq_refl Ht) as (o' & k' & ? & ? & ?).
      by exists o', k'.
Qed.

Lemma timestamps_of_length idx :
  forall timestamps,
    timestamps_of idx = Return timestamps -> length timestamps = length idx.
Proof.
  induction idx as [|o idx IH]; intros timestamps Hts; simpl in Hts.
  - by injection Hts as <-.
  - destruct (py_int o); [|done].
    destruct (timestamps_of idx) as [l|]; [|done].
    injection Hts as <-. simpl. by rewrite (IH l).
Qed.

Lemma create_data_points_from_skip i c rest timestamps acc w :
  barren c ->
  exists lg,
    create_data_points_from i (c :: rest) timestamps acc w
    = create_data_points_from (S i) rest timestamps acc
        (set_logged (logged w ++ lg) w).
Proof.
  intros Hc. destruct c as [|s|f]; [| |done]; simpl.
  - exists []. by rewrite set_logged_nil.
  - simpl in Hc. rewrite Hc. by exists [(INFO, MsgExn ValueError)].
Qed.

(** C7: the cells are parsed one by one.  A null cell and a string cell
    [float] rejects are passed over: nothing is raised, nothing is added,
    and the loop goes on with the next cell.  In a column of strings and
    nulls the call returns, and its result holds exactly, in row order, the
    data point of every string cell whose text, with commas turned into
    dots, is a float, at the cell's timestamp. *)
Theorem create_data_points_cell_by_cell values timestamps w :
  Forall str_or_null values ->
  (length values <= length timestamps)%nat ->
  (forall i c rest acc w0,
     barren c ->
     exists lg,
       create_data_points_from i (c :: rest) timestamps acc w0
       = create_data_points_from (S i) rest timestamps acc
           (set_logged (logged w0 ++ lg) w0))
  /\ exists dps,
      (create_data_points values timestamps w).2 = Return dps
      /\ dps = points_of values timestamps
      /\ (forall i s v t,
            values !! i = Some (CStr s) ->
            PyNum.float_of_str (PyStr.replace "," "." s) = Some v ->
            timestamps !! i = Some t ->
            mkDatapoint t v ∈ dps)
      /\ (forall dp, dp ∈ dps ->
            exists i s,
              values !! i = Some (CStr s)
              /\ timestamps !! i = Some (timestamp dp)
              /\ PyNum.float_of_str (PyStr.replace "," "." s)
                 = Some (value dp)).
Proof.
  intros Hobj Hlen. split.
  { intros i c rest acc w0. apply create_data_points_from_skip. }
  exists (points_of values timestamps).
  destruct (create_data_points_object values timestamps Hobj Hlen w)
    as [lg Hlg].
  rewrite Hlg. repeat split.
  - intros i s v t. apply points_of_complete.
  - apply points_of_lookup.
Qed.

(** The string "12,5" gives 12.5; an empty string, a null and a word give
    nothing. *)
Lemma create_data_points_cell_by_cell_witness :
  exists dps,
    (create_data_points
       [CStr "12,5"; CStr ""; CNull; CStr "n/a"; CStr "7"]
       [1000; 2000; 3000; 4000; 5000] quiet_world).2 = Return dps
    /\ dps = [mkDatapoint 1000 (PyFin false 125 (-1));
              mkDatapoint 5000 (PyFin false 7 0)]
    /\ (PyNum.Q_of_fin false 125 (-1) == 25 # 2)%Q.
Proof.
  destruct (create_data_points_cell_by_cell
              [CStr "12,5"; CStr ""; CNull; CStr "n/a"; CStr "7"]
              [1000; 2000; 3000; 4000; 5000] quiet_world)
    as (_ & dps & Hrun & Hdps & _).
  - repeat constructor.
  - simpl. lia.
  - exists dps. split; [exact Hrun |]. split; [|reflexivity].
    rewrite Hdps. vm_compute. reflexivity.
Defined.

(** C9 (amended): every data point of a column of strings and nulls has
    as timestamp [int] of an index entry times 1000 and as value the float
    read from that row's string cell, never from a null cell; when the
    converted index is non-decreasing, so are the timestamps of the emitted
    sequence. *)
Theorem column_data_points idx timestamps values w :
  timestamps_of idx = Return timestamps ->
  Forall str_or_null values ->
  length values = length idx ->
  exists dps,
    (create_data_points values timestamps w).2 = Return dps
    /\ (forall dp, dp ∈ dps ->
          exists i o k s,
            idx !! i = Some o
            /\ py_int o = Return k
            /\ timestamp dp = k * 1000
            /\ values !! i = Some (CStr s)
            /\ PyNum.float_of_str (PyStr.replace "," "." s) = Some (value dp))
    /\ (Sorted Z.le timestamps -> Sorted Z.le (timestamp <$> dps)).
Proof.
  intros Hts Hobj Hlen.
  assert (Hlen' : (length values <= length timestamps)%nat).
  { rewrite (timestamps_of_length _ _ Hts). lia. }
  exists (points_of values timestamps).
  destruct (create_data_points_object values timestamps Hobj Hlen' w)
    as [lg Hlg].
  rewrite Hlg. split; [done |]. split.
  - intros dp Hdp.
    destruct (points_of_lookup _ _ _ Hdp) as (i & s & Hv & Ht & Hf).
    destruct (timestamps_of_lookup _ _ _ _ Hts Ht) as (o & k & Ho & Hk & Heq).
    by exists i, o, k, s.
  - apply Sorted_le_sublist, points_of_sublist.
Qed.

Lemma column_data_points_witness :
  exists dps,
    (create_data_points [CStr "1,5"; CNull; CStr "2"] [1000; 2000; 3000]
                        quiet_world).2 = Return dps
    /\ Sorted Z.le (timestamp <$> dps).
Proof.
  destruct (column_data_points
              [IdxInt 1; IdxFloat (PyFin false 25 (-1)); IdxStr "3"]
              [1000; 2000; 3000]
              [CStr "1,5"; CNull; CStr "2"] quiet_world)
    as (dps & Hrun & _ & Hsorted).
  - reflexivity.
  - repeat constructor.
  - reflexivity.
  - exists dps. split; [exact Hrun |]. apply Hsorted.
    repeat constructor; lia.
Defined.

(** C9 as stated fails: the rows of a file come in file order, and the
    text "NAN" is a float. *)
Lemma column_data_points_counterexample :
  let dps := [mkDatapoint 2000 PyNaN; mkDatapoint 1000 (PyFin false 15 (-1))] in
  timestamps_of [IdxInt 2; IdxInt 1] = Return [2000; 1000]
  /\ (create_data_points [CStr "NAN"; CStr "1,5"] [2000; 1000]
                         quiet_world).2 = Return dps
  /\ ~ Sorted Z.le (timestamp <$> dps)
  /\ Exists (fun dp => PyNum.is_nan (value dp) = true) dps.
Proof.
  simpl. split; [reflexivity |]. split; [reflexivity |]. split.
  - intros Hs. apply Sorted_inv in Hs as [_ Hs].
    apply HdRel_inv in Hs. lia.
  - by left.
Qed.

(** ** Column headers *)

(** C4 (amended): a header is split at its last colon and both parts are
    stripped of surrounding white space: for a header [prefix:nm] with no
    colon in [nm], the name is [nm] stripped and the external identifier is
    [prefix] stripped; for a header [nm] with no colon at all, the name is
    the header stripped and the external identifier is the empty string. *)
Theorem header_name_and_external_id (prefix nm : string) :
  contains ":" nm = false ->
  name_of (prefix ++ ":" ++ nm)%string = PyStr.strip nm
  /\ external_id_of (prefix ++ ":" ++ nm)%string = PyStr.strip prefix
  /\ name_of nm = PyStr.strip nm
  /\ external_id_of nm = "".
Proof.
  intros Hn. unfold name_of, external_id_of.
  rewrite (rpartition_last _ _ Hn), (rpartition_none _ Hn). done.
Qed.

Lemma header_name_and_external_id_witness :
  name_of "PT 100: Flow rate " = "Flow rate"
  /\ external_id_of "PT 100: Flow rate " = "PT 100"
  /\ name_of " Flow rate " = "Flow rate"
  /\ external_id_of " Flow rate " = "".
Proof.
  destruct (header_name_and_external_id "PT 100" " Flow rate ")
    as (H1 & H2 & H3 & H4).
  - reflexivity.
  - exact (conj H1 (conj H2 (conj H3 H4))).
Defined.

(** C4 as stated fails: a header without a colon gets the empty external
    identifier, not the header. *)
Lemma header_name_and_external_id_counterexample :
  contains ":" "Temperature" = false
  /\ name_of "Temperature" = "Temperature"
  /\ external_id_of "Temperature" = ""
  /\ external_id_of "Temperature" <> "Temperature".
Proof. repeat split; done. Qed.

(** ** What the processing of a file leaves untouched *)

Section Keeps.
Context (R : relation world) `{!PreOrder R}.

Lemma keeps_ret {A} (a : A) (post : A -> Prop) :
  post a -> keeps R (ret a) post.
Proof. intros Ha w. by split. Qed.

Lemma keeps_raise {A} (e : exn) (post : A -> Prop) : keeps R (raise e) post.
Proof. intros w. by split. Qed.

Lemma keeps_lift {A} (o : outcome A) : keeps R (lift o) (fun _ => True).
Proof. intros w. split; [done |]. simpl. by destruct o. Qed.

Lemma keeps_bind {A B} (m : M A) (k : A -> M B) mid post :
  keeps R m mid ->
  (forall a, mid a -> keeps R (k a) post) ->
  keeps R (bind m k) post.
Proof.
  intros Hm Hk w. unfold bind. specialize (Hm w).
  destruct (m w) as [w1 [a|e]]; simpl in Hm; destruct Hm as [Hw Ha].
  - destruct (Hk a Ha w1) as [Hw1 Hpost]. split; [|done].
    by transitivity w1.
  - by split.
Qed.

Lemma keeps_weaken {A} (m : M A) (post post' : A -> Prop) :
  keeps R m post -> (forall a, post a -> post' a) -> keeps R m post'.
Proof.
  intros Hm Himp w. destruct (Hm w) as [Hw Hp]. split; [done |].
  destruct (m w).2; auto.
Qed.

Lemma keeps_try_except {A} (m : M A) class handler post :
  keeps R m post ->
  (forall e, keeps R (handler e) post) ->
  keeps R (try_except m class handler) post.
Proof.
  intros Hm Hh w. unfold try_except. specialize (Hm w).
  destruct (m w) as [w1 [a|e]]; simpl in Hm; destruct Hm as [Hw Ha].
  - by split.
  - destruct (class e); [|by split].
    destruct (Hh e w1) as [Hw1 Hpost]. split; [|done].
    by transitivity w1.
Qed.

Lemma keeps_try_except_else {A B} (m : M A) class
    (handler : exn -> M B) (orelse : M B) mid post :
  keeps R m mid ->
  (forall e, keeps R (handler e) post) ->
  (forall a, mid a -> keeps R orelse post) ->
  keeps R (try_except_else m class handler orelse) post.
Proof.
  intros Hm Hh Ho w. unfold try_except_else. specialize (Hm w).
  destruct (m w) as [w1 [a|e]]; simpl in Hm; destruct Hm as [Hw Ha].
  - destruct (Ho a Ha w1) as [Hw1 Hpost]. split; [|done].
    by transitivity w1.
  - destruct (class e); [|by split].
    destruct (Hh e w1) as [Hw1 Hpost]. split; [|done].
    by transitivity w1.
Qed.

Hypothesis R_logged : forall l w, R w (set_logged l w).
Hypothesis R_cache : forall c w, R w (set_time_series_cache c w).
Hypothesis R_prometheus : forall p w, R w (set_prometheus p w).
Variable allowed : request -> Prop.
Hypothesis R_posted :
  forall r w, allowed r -> R w (set_posted (posted w ++ [r]) w).
Hypothesis allowed_time_series : forall l, allowed (PostTimeSeries l).
Hypothesis allowed_datapoints :
  forall l, l <> [] -> (length l <= BATCH_MAX)%nat ->
            allowed (PostDatapoints l).

Lemma keeps_log lv msg : keeps R (log lv msg) (fun _ => True).
Proof. intros w. split; [apply R_logged | done]. Qed.

Lemma keeps_call client r :
  allowed r -> keeps R (call client r) (fun _ => True).
Proof.
  intros Hr w. split; [by apply R_posted |].
  simpl. by destruct (fails client (posted w) r).
Qed.

Lemma keeps_log_error {A} (m : M A) :
  keeps R m (fun _ => True) -> keeps R (_log_error m) (fun _ => True).
Proof.
  intros Hm. unfold _log_error. apply keeps_try_except.
  - eapply keeps_bind; [exact Hm |]. intros a _. by apply keeps_ret.
  - intros e. eapply keeps_bind; [apply keeps_log |].
    intros _ _. by apply keeps_ret.
Qed.

Lemma keeps_update_prometheus f :
  keeps R (update_prometheus f) (fun _ => True).
Proof. intros w. split; [apply R_prometheus | done]. Qed.

Lemma keeps_create_data_points_from values :
  forall i timestamps acc,
    keeps R (create_data_points_from i values timestamps acc)
          (fun dps => dps = [] -> acc = []).
Proof.
  induction values as [|c values IH]; intros i timestamps acc; simpl.
  - by apply keeps_ret.
  - destruct (notnull c); [|apply IH].
    destruct (convert_float c) as [v|e].
    + destruct (timestamps !! i) as [t|]; [|apply keeps_raise].
      eapply keeps_weaken; [apply IH |]. simpl. intros dps Hdps Hnil.
      specialize (Hdps Hnil). by destruct acc.
    + destruct e; try apply keeps_raise.
      eapply keeps_bind; [apply keeps_log |]. intros _ _. apply IH.
Qed.

Lemma keeps_process_column client timestamps col cur n :
  (length cur <= BATCH_MAX)%nat ->
  keeps R (process_column client timestamps col (cur, n))
        (fun locals => (length locals.1 <= BATCH_MAX)%nat).
Proof.
  intros Hcur. unfold process_column.
  eapply keeps_bind with
    (mid := fun c => (length c <= BATCH_MAX)%nat
                     /\ ((BATCH_MAX <=? length cur)%nat = true -> c = [])
                     /\ ((BATCH_MAX <=? length cur)%nat = false -> c = cur)).
  { destruct (BATCH_MAX <=? length cur)%nat eqn:Hfull.
    - eapply keeps_bind.
      + apply keeps_log_error, keeps_call, allowed_datapoints; [|done].
        apply Nat.leb_le in Hfull. intros ->. simpl in Hfull.
        unfold BATCH_MAX in Hfull. lia.
      + intros _ _. apply keeps_ret. simpl. repeat split; [lia | done..].
    - by apply keeps_ret. }
  intros base (Hbase & Hfull & Hroom).
  eapply keeps_bind with (mid := fun _ => True).
  { intros w. by split. }
  intros cache _.
  eapply keeps_bind with (mid := fun _ => True).
  { destruct (cache !! external_id_of col.1).
    - by apply keeps_ret.
    - eapply keeps_bind;
        [apply keeps_log_error, keeps_call, allowed_time_series |].
      intros _ _. eapply keeps_bind with (mid := fun _ => True).
      { intros w. split; [apply R_cache | done]. }
      intros _ _. eapply keeps_bind; [apply keeps_update_prometheus |].
      intros _ _. apply keeps_update_prometheus. }
  intros _ _.
  eapply keeps_bind; [apply keeps_create_data_points_from |].
  intros dps _. destruct dps as [|dp dps].
  { by apply keeps_ret. }
  eapply keeps_bind with (mid := fun _ => True).
  { intros w. by split. }
  intros cache' _. destruct (cache' !! external_id_of col.1).
  - eapply keeps_bind; [apply keeps_update_prometheus |].
    intros _ _. apply keeps_ret. simpl. rewrite length_app. simpl.
    destruct (BATCH_MAX <=? length cur)%nat eqn:Hf.
    + rewrite (Hfull eq_refl). simpl. unfold BATCH_MAX. lia.
    + rewrite (Hroom eq_refl). apply Nat.leb_gt in Hf. lia.
  - apply keeps_raise.
Qed.

Lemma keeps_process_columns client timestamps cols :
  forall cur n,
    (length cur <= BATCH_MAX)%nat ->
    keeps R (process_columns client timestamps cols (cur, n))
          (fun locals => (length locals.1 <= BATCH_MAX)%nat).
Proof.
  induction cols as [|col cols IH]; intros cur n Hcur; simpl.
  - by apply keeps_ret.
  - eapply keeps_bind; [by apply keeps_process_column |].
    intros [cur' n'] Hcur'. by apply IH.
Qed.

(** [process_csv_file] never returns: its last statement exits. *)
Lemma keeps_process_csv_file client csv_path :
  keeps R (process_csv_file client csv_path) (fun _ => False).
Proof.
  unfold process_csv_file.
  eapply keeps_bind with (mid := fun _ => True).
  { intros w. unfold pandas_read_csv.
    destruct (folder w !! csv_path) as [f|]; simpl; [|by split].
    split; [done |]. by destruct (read_csv f). }
  intros df _. eapply keeps_bind; [apply keeps_lift |].
  intros timestamps _.
  eapply keeps_bind.
  { apply keeps_process_columns. simpl. lia. }
  intros [cur n] Hcur. simpl in Hcur. simpl.
  eapply keeps_bind with (mid := fun _ => True).
  { destruct cur as [|e cur]; [by apply keeps_ret |].
    eapply keeps_weaken; [|done].
    apply keeps_log_error, keeps_call, allowed_datapoints; done. }
  intros _ _. eapply keeps_bind; [apply keeps_log |].
  intros _ _. eapply keeps_bind; [apply keeps_update_prometheus |].
  intros _ _. eapply keeps_bind; [apply keeps_update_prometheus |].
  intros _ _. apply keeps_raise.
Qed.

Variable failed_path : bool.
Hypothesis R_folder :
  failed_path = true -> forall f w, R w (set_folder f w).
Hypothesis R_failed_folder :
  failed_path = true -> forall d w, R w (set_failed_folder d w).

Lemma keeps_process_files client paths :
  keeps R (process_files client paths failed_path) (fun _ => True).
Proof.
  induction paths as [|path paths IH]; simpl.
  - by apply keeps_ret.
  - eapply keeps_bind with (mid := fun _ => True); [|intros _ _; exact IH].
    apply keeps_try_except; [|intros e; apply keeps_log].
    eapply keeps_try_except_else.
    + apply keeps_process_csv_file.
    + intros e. eapply keeps_bind; [apply keeps_log |]. intros _ _.
      destruct failed_path eqn:Hfp; [|by apply keeps_ret].
      eapply keeps_bind with (mid := fun _ => True).
      * intros w. unfold mkdir_failed.
        destruct (failed_folder w); simpl; [by split |].
        destruct (folder w !! "failed"); simpl; [by split |].
        split; [by apply R_failed_folder | done].
      * intros _ _ w. unfold replace_into_failed.
        destruct (folder w !! path) as [f|]; simpl; [|by split].
        destruct (failed_folder w) as [d|]; simpl; [|by split].
        split; [|done]. etransitivity; [by apply R_folder |].
        by apply R_failed_folder.
    + intros a [].
Qed.
End Keeps.

(** ** One column *)

Lemma bind_Return {A B} (m : M A) (k : A -> M B) w w1 a :
  m w = (w1, Return a) -> bind m k w = k a w1.
Proof. intros H. unfold bind. by rewrite H. Qed.

Lemma log_error_call_run client r w :
  exists w1 o,
    _log_error (call client r) w = (w1, Return o)
    /\ posted w1 = posted w ++ [r]
    /\ time_series_cache w1 = time_series_cache w
    /\ prometheus w1 = prometheus w
    /\ logged w1
       = logged w ++ (if fails client (posted w) r
                      then [(INFO, MsgExn APIError)] else []).
Proof.
  unfold _log_error, try_except, bind, call, log, ret.
  destruct (fails client (posted w) r); simpl;
    eexists _, _; (split; [reflexivity |]); simpl;
    by rewrite ?app_nil_r.
Qed.

Lemma flush_when_full_run client cur w :
  let full := (BATCH_MAX <=? length cur)%nat in
  exists w1,
    (if full
     then _log_error (call client (PostDatapoints cur)) ;; ret []
     else ret cur) w
    = (w1, Return (if full then [] else cur))
    /\ posted w1 = posted w ++ (if full then [PostDatapoints cur] else [])
    /\ time_series_cache w1 = time_series_cache w
    /\ prometheus w1 = prometheus w.
Proof.
  cbv zeta. destruct (BATCH_MAX <=? length cur)%nat.
  - destruct (log_error_call_run client (PostDatapoints cur) w)
      as (w1 & o & Hrun & Hp & Hc & Hg & _).
    exists w1. by rewrite (bind_Return _ _ _ _ _ Hrun).
  - exists w. by rewrite app_nil_r.
Qed.

Lemma register_when_unknown_run client col w :
  let external_id := external_id_of col in
  exists w2,
    match time_series_cache w !! external_id with
    | None =>
        _log_error (call client (PostTimeSeries [new_time_series col])) ;;
        cache_store external_id (name_of col) ;;
        update_prometheus inc_time_series_gauge ;;
        update_prometheus push_to_server
    | Some _ => ret tt
    end w
    = (w2, Return tt)
    /\ posted w2
       = posted w ++ match time_series_cache w !! external_id with
                     | None => [PostTimeSeries [new_time_series col]]
                     | Some _ => []
                     end
    /\ time_series_cache w2
       = match time_series_cache w !! external_id with
         | None => <[external_id := name_of col]> (time_series_cache w)
         | Some _ => time_series_cache w
         end
    /\ (time_series_cache w !! external_id = None ->
        fails client (posted w) (PostTimeSeries [new_time_series col]) = true ->
        (INFO, MsgExn APIError) ∈ logged w2)
    /\ time_series_data_points_gauge (prometheus w2)
       = time_series_data_points_gauge (prometheus w)
    /\ all_data_points_gauge (prometheus w2)
       = all_data_points_gauge (prometheus w).
Proof.
  cbv zeta. destruct (time_series_cache w !! external_id_of col) as [nm|].
  - exists w. by rewrite app_nil_r.
  - destruct (log_error_call_run client (PostTimeSeries [new_time_series col]) w)
      as (w1 & o & Hrun & Hp & Hc & Hg & Hl).
    rewrite (bind_Return _ _ _ _ _ Hrun).
    eexists. split; [reflexivity |]. simpl. rewrite Hp, Hc, Hg, Hl.
    repeat split. intros _ ->. apply elem_of_app. right. by left.
Qed.
(** What the loop body does with a column whose cells give [dps]. *)
Lemma process_column_yields client timestamps col values dps cur n w :
  yields values timestamps dps ->
  let full := (BATCH_MAX <=? length cur)%nat in
  let base := if full then [] else cur in
  let flushed := if full then [PostDatapoints cur] else [] in
  let external_id := external_id_of col in
  let registered :=
    default (name_of col) (time_series_cache w !! external_id) in
  let registration :=
    match time_series_cache w !! external_id with
    | None => [PostTimeSeries [new_time_series col]]
    | Some _ => []
    end in
  exists w',
    process_column client timestamps (col, values) (cur, n) w
    = (w', Return
             match dps with
             | [] => (base, n)
             | _ => (base ++ [mkTimeseriesWithDatapoints registered dps],
                     (n + length dps)%nat)
             end)
    /\ posted w' = posted w ++ flushed ++ registration
    /\ time_series_cache w'
       = match time_series_cache w !! external_id with
         | None => <[external_id := name_of col]> (time_series_cache w)
         | Some _ => time_series_cache w
         end
    /\ (time_series_cache w !! external_id = None ->
        fails client (posted w ++ flushed)
              (PostTimeSeries [new_time_series col]) = true ->
        (INFO, MsgExn APIError) ∈ logged w')
    /\ (dps = [] ->
        time_series_data_points_gauge (prometheus w')
        = time_series_data_points_gauge (prometheus w)
        /\ all_data_points_gauge (prometheus w')
           = all_data_points_gauge (prometheus w)).
Proof.
  intros Hy full base flushed external_id registered registration.
  subst full base flushed registered registration external_id.
  destruct (flush_when_full_run client cur w) as (w1 & H1 & Hp1 & Hc1 & Hg1).
  destruct (register_when_unknown_run client col w1)
    as (w2 & H2 & Hp2 & Hc2 & Hl2 & Hg2 & Hg2').
  destruct (Hy w2) as [lg H3].
  unfold process_column.
  rewrite (bind_Return _ _ _ _ _ H1).
  unfold get_cache at 1. unfold bind at 1. cbn [fst snd].
  rewrite (bind_Return _ _ _ _ _ H2).
  rewrite (bind_Return _ _ _ _ _ H3).
  rewrite Hc1 in *. rewrite Hp1 in *. rewrite Hg1 in *.
  destruct dps as [|dp dps].
  - eexists. split; [reflexivity |]. simpl.
    rewrite Hp2, Hc2, Hg2, Hg2', <- app_assoc. repeat split; auto.
    intros Hmiss Hfail. apply elem_of_app. left. by apply Hl2.
  - unfold get_cache at 1. unfold bind at 1. cbn [set_logged time_series_cache].
    rewrite Hc2.
    destruct (time_series_cache w !! external_id_of col) as [nm|] eqn:Hc;
      rewrite ?Hc, ?lookup_insert_eq.
    + eexists. split; [reflexivity |]. simpl.
      rewrite Hp2, Hc2, <- app_assoc. repeat split; try done.
    + eexists. split; [reflexivity |]. simpl.
      rewrite Hp2, Hc2, <- app_assoc. repeat split; try done.
      intros _ Hfail. apply elem_of_app. left. by apply Hl2.
Qed.

(** ** The batch buffer *)

#[local] Instance posts_since_preorder ok : PreOrder (posts_since ok).
Proof.
  split.
  - intros w. exists []. by rewrite app_nil_r.
  - intros w1 w2 w3 (n1 & H1 & F1) (n2 & H2 & F2). exists (n1 ++ n2).
    split; [by rewrite H2, H1, app_assoc |].
    unfold datapoint_posts in *. rewrite omap_app. by apply Forall_app.
Qed.

#[local] Instance same_folder_preorder : PreOrder same_folder.
Proof.
  split; [done |]. intros w1 w2 w3 H1 H2. unfold same_folder in *. congruence.
Qed.

#[local] Instance scans_since_preorder start : PreOrder (scans_since start).
Proof.
  split.
  - intros w. exists 0%nat. by rewrite app_nil_r.
  - intros w1 w2 w3 [k1 H1] [k2 H2]. exists (k1 + k2)%nat.
    by rewrite H2, H1, replicate_add, app_assoc.
Qed.

(** Every append call made while files are processed carries between one
    and [BATCH_MAX] series entries. *)
Lemma process_files_payloads client paths failed_path w :
  exists new,
    posted (process_files client paths failed_path w).1 = posted w ++ new
    /\ Forall payload_ok (datapoint_posts new).
Proof.
  apply (keeps_process_files (posts_since payload_ok))
    with (allowed := fun r => match r with
                              | PostDatapoints p => payload_ok p
                              | _ => True
                              end); try done.
  - intros l w0. exists []. by rewrite app_nil_r.
  - intros c w0. exists []. by rewrite app_nil_r.
  - intros p w0. exists []. by rewrite app_nil_r.
  - intros r w0 Hr. exists [r]. split; [done |].
    destruct r; simpl; [done |]. by constructor.
  - intros _ f w0. exists []. by rewrite app_nil_r.
  - intros _ d w0. exists []. by rewrite app_nil_r.
Qed.

Lemma process_columns_app client timestamps cols1 cols2 locals w :
  process_columns client timestamps (cols1 ++ cols2) locals w
  = bind (process_columns client timestamps cols1 locals)
         (process_columns client timestamps cols2) w.
Proof.
  revert locals w. induction cols1 as [|col cols1 IH]; intros locals w.
  - done.
  - simpl. unfold bind.
    destruct (process_column client timestamps col locals w) as [w1 [l1|e]];
      [|done].
    rewrite IH. by unfold bind.
Qed.

Lemma datapoint_posts_registration (cache : gmap string string) k col :
  datapoint_posts
    match cache !! k with
    | None => [PostTimeSeries [new_time_series col]]
    | Some _ => []
    end = [].
Proof. by destruct (cache !! k). Qed.

(** While there is room, productive columns fill the buffer and nothing is
    sent. *)
Lemma process_columns_fill client timestamps cols :
  forall cur n w,
    Forall (productive timestamps) cols ->
    (length cur + length cols <= BATCH_MAX)%nat ->
    exists w' buffer n' new,
      process_columns client timestamps cols (cur, n) w
      = (w', Return (buffer, n'))
      /\ length buffer = (length cur + length cols)%nat
      /\ posted w' = posted w ++ new
      /\ datapoint_posts new = [].
Proof.
  induction cols as [|[col values] cols IH]; intros cur n w Hp Hroom.
  - exists w, cur, n, []. simpl. by rewrite app_nil_r, Nat.add_0_r.
  - apply Forall_cons in Hp as [(dps & Hne & Hy) Hp]. simpl in Hroom, Hy.
    destruct (process_column_yields client timestamps col values dps cur n w Hy)
      as (w1 & Hrun & Hposted & _).
    assert (Hfull : (BATCH_MAX <=? length cur)%nat = false)
      by (apply Nat.leb_gt; lia).
    rewrite Hfull in Hrun, Hposted.
    destruct dps as [|dp dps]; [done |].
    match type of Hrun with _ = (_, Return (?b, ?m)) =>
      destruct (IH b m w1 Hp) as (w' & buffer & n' & new & Hrun' & Hlen & Hp' & Hd)
    end.
    { rewrite length_app. simpl. lia. }
    exists w', buffer, n'. eexists. simpl.
    rewrite (bind_Return _ _ _ _ _ Hrun). split; [exact Hrun' |].
    split; [rewrite Hlen, length_app; simpl; lia |].
    split; [by rewrite Hp', Hposted, <- !app_assoc |].
    unfold datapoint_posts in *. rewrite !omap_app, Hd. simpl.
    fold (datapoint_posts
            match time_series_cache w !! external_id_of col with
            | Some _ => []
            | None => [PostTimeSeries [new_time_series col]]
            end).
    by rewrite datapoint_posts_registration.
Qed.

(** C6: from an empty buffer, 1001 columns that each give data points
    cause exactly one automatic flush, of [BATCH_MAX] = 1000 entries, and
    leave one entry in the buffer; and no append call made while files are
    processed carries more than [BATCH_MAX] entries. *)
Theorem batch_of_1001_columns client timestamps cols w :
  length cols = 1001%nat ->
  Forall (productive timestamps) cols ->
  (exists w' buffer n new auto,
     process_columns client timestamps cols ([], 0%nat) w
     = (w', Return (buffer, n))
     /\ posted w' = posted w ++ new
     /\ datapoint_posts new = [auto]
     /\ length auto = 1000%nat
     /\ length buffer = 1%nat)
  /\ (forall client' paths failed_path w0,
        exists new,
          posted (process_files client' paths failed_path w0).1
          = posted w0 ++ new
          /\ Forall (fun p => (length p <= BATCH_MAX)%nat)
                    (datapoint_posts new)).
Proof.
  intros Hlen Hp. split.
  - destruct (exists_last (l := cols)) as (cols1 & [col values] & ->);
      [by intros -> |].
    rewrite length_app in Hlen. simpl in Hlen.
    apply Forall_app in Hp as [Hp1 Hlast].
    apply Forall_singleton in Hlast as (dps & Hne & Hy). simpl in Hy.
    destruct (process_columns_fill client timestamps cols1 [] 0%nat w Hp1)
      as (w1 & buf1 & n1 & new1 & Hrun1 & Hlen1 & Hposted1 & Hd1).
    { simpl. unfold BATCH_MAX. lia. }
    simpl in Hlen1.
    destruct (process_column_yields client timestamps col values dps buf1 n1 w1 Hy)
      as (w2 & Hrun2 & Hposted2 & _).
    assert (Hfull : (BATCH_MAX <=? length buf1)%nat = true)
      by (apply Nat.leb_le; unfold BATCH_MAX; lia).
    rewrite Hfull in Hrun2, Hposted2.
    destruct dps as [|dp dps]; [done |].
    eexists w2, _, _, _, buf1.
    rewrite process_columns_app, (bind_Return _ _ _ _ _ Hrun1). simpl.
    rewrite (bind_Return _ _ _ _ _ Hrun2). split; [reflexivity |].
    split; [by rewrite Hposted2, Hposted1, <- app_assoc |].
    split; [|split; [lia | done]].
    unfold datapoint_posts in *. rewrite !omap_app, Hd1. simpl.
    fold (datapoint_posts
            match time_series_cache w1 !! external_id_of col with
            | Some _ => []
            | None => [PostTimeSeries [new_time_series col]]
            end).
    by rewrite datapoint_posts_registration.
  - intros client' paths failed_path w0.
    destruct (process_files_payloads client' paths failed_path w0)
      as (new & Hposted & Hok).
    exists new. split; [done |].
    eapply Forall_impl; [exact Hok |]. by intros p [_ ?].
Qed.

Lemma batch_of_1001_columns_witness :
  let cols := replicate 1001 ("PT100:flow", [CStr "12,5"]) in
  exists w' buffer n new auto,
    process_columns Examples.ok_client [1000] cols ([], 0%nat) quiet_world
    = (w', Return (buffer, n))
    /\ posted w' = posted quiet_world ++ new
    /\ datapoint_posts new = [auto]
    /\ length auto = 1000%nat
    /\ length buffer = 1%nat.
Proof.
  apply (batch_of_1001_columns Examples.ok_client [1000]
           (replicate 1001 ("PT100:flow", [CStr "12,5"])) quiet_world).
  - apply length_replicate.
  - apply Forall_replicate.
    exists (points_of [CStr "12,5"] [1000]). split; [done |].
    apply create_data_points_object; [repeat constructor | simpl; lia].
Defined.

(** C10: a column whose cells are all null or rejected by [float] adds no
    entry to the buffer and nothing to the counts of data points; and no
    append call made while files are processed carries an empty sequence
    of series entries. *)
Theorem barren_column_adds_nothing client timestamps col values cur n w :
  Forall barren values ->
  (exists w',
     process_column client timestamps (col, values) (cur, n) w
     = (w', Return (if (BATCH_MAX <=? length cur)%nat then [] else cur, n))
     /\ time_series_data_points_gauge (prometheus w')
        = time_series_data_points_gauge (prometheus w)
     /\ all_data_points_gauge (prometheus w')
        = all_data_points_gauge (prometheus w))
  /\ (forall client' paths failed_path w0,
        exists new,
          posted (process_files client' paths failed_path w0).1
          = posted w0 ++ new
          /\ Forall (fun p => p <> []) (datapoint_posts new)).
Proof.
  intros Hb. split.
  - destruct (process_column_yields client timestamps col values [] cur n w
                (create_data_points_barren values timestamps Hb))
      as (w' & Hrun & _ & _ & _ & Hg).
    exists w'. split; [exact Hrun |]. by apply Hg.
  - intros client' paths failed_path w0.
    destruct (process_files_payloads client' paths failed_path w0)
      as (new & Hposted & Hok).
    exists new. split; [done |].
    eapply Forall_impl; [exact Hok |]. by intros p [? _].
Qed.

Lemma barren_column_adds_nothing_witness :
  exists w',
    process_column Examples.ok_client [1000; 2000; 3000]
                   ("PT100:flow", [CNull; CStr "n/a"; CStr ""])
                   ([], 0%nat) quiet_world
    = (w', Return ([], 0%nat)).
Proof.
  destruct (barren_column_adds_nothing Examples.ok_client [1000; 2000; 3000]
              "PT100:flow" [CNull; CStr "n/a"; CStr ""] [] 0%nat quiet_world)
    as [(w' & Hrun & _) _].
  - repeat constructor.
  - exists w'. exact Hrun.
Defined.

(** ** Registration *)

(** C5 (amended): when the registration of a column's series fails, the
    failure is logged and not passed on: the external identifier is cached
    under the header's name all the same, the column's data points go into
    the buffer under that name, and the loop goes on with the remaining
    columns. *)
Theorem registration_failure_is_swallowed
    client timestamps col values dps cur n w :
  time_series_cache w !! external_id_of col = None ->
  (length cur < BATCH_MAX)%nat ->
  fails client (posted w) (PostTimeSeries [new_time_series col]) = true ->
  yields values timestamps dps ->
  dps <> [] ->
  exists w',
    let locals' := (cur ++ [mkTimeseriesWithDatapoints (name_of col) dps],
                    (n + length dps)%nat) in
    process_column client timestamps (col, values) (cur, n) w
    = (w', Return locals')
    /\ posted w' = posted w ++ [PostTimeSeries [new_time_series col]]
    /\ time_series_cache w' !! external_id_of col = Some (name_of col)
    /\ (INFO, MsgExn APIError) ∈ logged w'
    /\ (forall rest,
          process_columns client timestamps ((col, values) :: rest) (cur, n) w
          = process_columns client timestamps rest locals' w').
Proof.
  intros Hmiss Hroom Hfail Hy Hne.
  destruct (process_column_yields client timestamps col values dps cur n w Hy)
    as (w' & Hrun & Hposted & Hcache & Hlog & _).
  assert (Hfull : (BATCH_MAX <=? length cur)%nat = false)
    by (apply Nat.leb_gt; lia).
  rewrite Hfull in Hrun, Hposted, Hlog. rewrite Hmiss in Hrun, Hposted, Hcache.
  rewrite app_nil_r in Hlog. simpl in Hrun, Hposted.
  destruct dps as [|dp dps]; [done |].
  exists w'. cbv zeta. split; [exact Hrun |]. split; [exact Hposted |].
  split; [by rewrite Hcache, lookup_insert_eq |]. split; [by apply Hlog |].
  intros rest. simpl. by rewrite (bind_Return _ _ _ _ _ Hrun).
Qed.

Lemma registration_failure_is_swallowed_witness :
  exists w',
    process_column Examples.refusing_client [1000]
                   ("PT100:flow", [CStr "12,5"]) ([], 0%nat) quiet_world
    = (w', Return
             ([mkTimeseriesWithDatapoints
                 "flow" [mkDatapoint 1000 (PyFin false 125 (-1))]], 1%nat))
    /\ (INFO, MsgExn APIError) ∈ logged w'.
Proof.
  destruct (registration_failure_is_swallowed Examples.refusing_client [1000]
              "PT100:flow" [CStr "12,5"]
              [mkDatapoint 1000 (PyFin false 125 (-1))] [] 0%nat quiet_world)
    as (w' & Hrun & _ & _ & Hlog & _).
  - reflexivity.
  - unfold BATCH_MAX. simpl. lia.
  - reflexivity.
  - apply (create_data_points_object [CStr "12,5"] [1000]);
      [repeat constructor | simpl; lia].
  - done.
  - exists w'. split; [exact Hrun | exact Hlog].
Defined.

(** C5 as stated fails: with a store that refuses the registration, the
    file is processed as with one that accepts it, and the column's points
    are sent under the name that was not registered. *)
Lemma registration_failure_counterexample :
  let w := Examples.world_of
             {[ "a.csv" := Examples.good_file (100 # 1) ]} (1000 # 1) in
  let r := process_csv_file Examples.refusing_client "a.csv" w in
  fails Examples.refusing_client []
        (PostTimeSeries [new_time_series "PT100:flow"]) = true
  /\ posted r.1
     = [PostTimeSeries [new_time_series "PT100:flow"];
        PostDatapoints
          [mkTimeseriesWithDatapoints
             "flow" [mkDatapoint 1550076300000 (PyFin false 125 (-1))]]]
  /\ r.2 = (process_csv_file Examples.ok_client "a.csv" w).2
  /\ logged r.1 = [(INFO, MsgExn APIError); (INFO, MsgProcessed 1 "a.csv")].
Proof. vm_compute. repeat split; reflexivity. Qed.

(** ** The scanner *)

Lemma insert_by_Permutation {A} (le : A -> A -> bool) x l :
  insert_by le x l ≡ₚ x :: l.
Proof.
  induction l as [|y l IH]; simpl; [done |].
  destruct (le x y); [done |]. rewrite IH. apply Permutation_swap.
Qed.

Lemma sort_by_Permutation {A} (le : A -> A -> bool) l : sort_by le l ≡ₚ l.
Proof.
  induction l as [|x l IH]; simpl; [done |].
  fold (sort_by le l). by rewrite insert_by_Permutation, IH.
Qed.

Lemma insert_by_Sorted {A} (le : A -> A -> bool) x l :
  (forall a b, le a b = true \/ le b a = true) ->
  Sorted (fun a b => le a b = true) l ->
  Sorted (fun a b => le a b = true) (insert_by le x l).
Proof.
  intros Htotal. induction 1 as [|y l Hs IH Hhd]; simpl.
  - by repeat constructor.
  - destruct (le x y) eqn:Hxy.
    + constructor; [by constructor |]. by constructor.
    + constructor; [exact IH |].
      destruct (Htotal x y) as [Hle|Hle]; [congruence |].
      destruct Hhd as [|z l Hyz]; simpl; [by constructor |].
      destruct (le x z); by constructor.
Qed.

Lemma sort_by_Sorted {A} (le : A -> A -> bool) l :
  (forall a b, le a b = true \/ le b a = true) ->
  Sorted (fun a b => le a b = true) (sort_by le l).
Proof.
  intros Htotal. induction l as [|x l IH]; simpl; [constructor |].
  by apply insert_by_Sorted.
Qed.

Lemma relevant_paths_run after_timestamp before_timestamp entries :
  forall acc w,
    exists lg,
      relevant_paths entries after_timestamp before_timestamp acc w
      = (set_logged (logged w ++ lg) w,
         Return (acc ++ map fst
                   (List.filter
                      (fun p => in_window after_timestamp before_timestamp p.2)
                      entries)))
      /\ (forall path f,
            (path, f) ∈ entries -> stat_mtime f = None ->
            (ERROR, MsgStatFailed path IOError) ∈ lg).
Proof.
  induction entries as [|[p f] entries IH]; intros acc w.
  - exists []. simpl. unfold ret. rewrite set_logged_nil, app_nil_r.
    split; [done |]. intros path f Hin. by apply elem_of_nil in Hin.
  - simpl. unfold in_window at 1. simpl.
    destruct (stat_mtime f) as [m|] eqn:Hm.
    + destruct (PyNum.Qltb (inject_Z after_timestamp) m
                && PyNum.Qltb m (inject_Z before_timestamp)).
      * destruct (IH (acc ++ [p]) w) as (lg & Hrun & Hlog).
        exists lg. rewrite Hrun. simpl. rewrite <- app_assoc.
        split; [done |]. intros path f' Hin Hnone.
        apply elem_of_cons in Hin as [Heq|Hin]; [|by eapply Hlog].
        injection Heq as -> ->. congruence.
      * destruct (IH acc w) as (lg & Hrun & Hlog).
        exists lg. rewrite Hrun. split; [done |]. intros path f' Hin Hnone.
        apply elem_of_cons in Hin as [Heq|Hin]; [|by eapply Hlog].
        injection Heq as -> ->. congruence.
    + unfold bind, log. simpl.
      destruct (IH acc
                  (set_logged (logged w ++ [(ERROR, MsgStatFailed p IOError)]) w))
        as (lg & Hrun & Hlog).
      exists ((ERROR, MsgStatFailed p IOError) :: lg).
      rewrite Hrun, set_logged_app. split; [done |].
      intros path f' Hin Hnone.
      apply elem_of_cons in Hin as [Heq|Hin].
      * injection Heq as -> ->. by left.
      * right. by eapply Hlog.
Qed.

(** The candidates of a scan, before ordering and truncation. *)
Lemma find_files_in_path_run after_timestamp limit newest_first w :
  let before_timestamp := PyNum.int_of_Q (now w - inject_Z 2)%Q in
  let candidates :=
    map fst (List.filter
               (fun p => in_window after_timestamp before_timestamp p.2)
               (glob_csv w)) in
  let paths := sorted String.leb newest_first candidates in
  exists lg,
    find_files_in_path after_timestamp limit newest_first w
    = (set_logged (logged w ++ lg)
                  (set_scanned (scanned w ++ [after_timestamp]) w),
       Return match limit with
              | None | Some O => paths
              | Some n => take n paths
              end)
    /\ (forall path f,
          (path, f) ∈ glob_csv w -> stat_mtime f = None ->
          (ERROR, MsgStatFailed path IOError) ∈ lg).
Proof.
  cbv zeta. unfold find_files_in_path.
  destruct (relevant_paths_run after_timestamp
              (PyNum.int_of_Q (now w - inject_Z 2)%Q) (glob_csv w) []
              (set_scanned (scanned w ++ [after_timestamp]) w))
    as (lg & Hrun & Hlog).
  exists lg. split; [|exact Hlog].
  by rewrite (bind_Return _ _ _ _ _ Hrun).
Qed.

Lemma elem_of_glob_csv w path f :
  (path, f) ∈ glob_csv w
  <-> folder w !! path = Some f /\ PyStr.endswith path ".csv" = true.
Proof.
  unfold glob_csv. rewrite list_elem_of_In, filter_In, <- list_elem_of_In.
  by rewrite elem_of_map_to_list.
Qed.

Lemma in_window_spec after_timestamp before_timestamp f :
  in_window after_timestamp before_timestamp f = true
  <-> exists m, stat_mtime f = Some m
                /\ (inject_Z after_timestamp < m)%Q
                /\ (m < inject_Z before_timestamp)%Q.
Proof.
  unfold in_window. destruct (stat_mtime f) as [m|].
  - rewrite andb_true_iff, !Qltb_lt. split.
    + intros [? ?]. by exists m.
    + intros (m' & [= <-] & ? & ?). done.
  - split; [done |]. by intros (m & ? & _).
Qed.

(** C8 (amended): a scan without a limit returns exactly the entries of
    the input folder named [*.csv] whose [stat] succeeds with a
    modification time strictly above [after_timestamp] and strictly below
    [int(now - 2)], the quiet bound cut to whole seconds; with a limit it
    returns the first [limit] of them in its order.  An entry whose [stat]
    fails is logged and left out, and the scan returns all the same. *)
Theorem find_files_in_path_candidates after_timestamp limit newest_first w :
  exists w' all,
    find_files_in_path after_timestamp None newest_first w = (w', Return all)
    /\ (forall path,
          path ∈ all <->
          exists f m,
            folder w !! path = Some f
            /\ PyStr.endswith path ".csv" = true
            /\ stat_mtime f = Some m
            /\ (inject_Z after_timestamp < m)%Q
            /\ (m < inject_Z (PyNum.int_of_Q (now w - inject_Z 2)))%Q)
    /\ (find_files_in_path after_timestamp limit newest_first w).2
       = Return match limit with
                | None | Some O => all
                | Some n => take n all
                end
    /\ (forall path f,
          folder w !! path = Some f ->
          PyStr.endswith path ".csv" = true ->
          stat_mtime f = None ->
          (ERROR, MsgStatFailed path IOError) ∈ logged w' /\ path ∉ all).
Proof.
  destruct (find_files_in_path_run after_timestamp None newest_first w)
    as (lg & Hrun & Hlog).
  destruct (find_files_in_path_run after_timestamp limit newest_first w)
    as (lg' & Hrun' & _).
  cbv zeta in Hrun, Hrun'.
  eexists _, _. split; [exact Hrun |].
  assert (Hmem : forall path,
    path ∈ sorted String.leb newest_first
             (map fst
                (List.filter
                   (fun p => in_window after_timestamp
                               (PyNum.int_of_Q (now w - inject_Z 2)) p.2)
                   (glob_csv w)))
    <-> exists f m,
          folder w !! path = Some f
          /\ PyStr.endswith path ".csv" = true
          /\ stat_mtime f = Some m
          /\ (inject_Z after_timestamp < m)%Q
          /\ (m < inject_Z (PyNum.int_of_Q (now w - inject_Z 2)))%Q).
  { intros path. unfold sorted. rewrite sort_by_Permutation.
    rewrite list_elem_of_In, in_map_iff. split.
    - intros ([p f] & <- & Hin). apply filter_In in Hin as [Hin Hwin].
      apply list_elem_of_In, elem_of_glob_csv in Hin as [Hf Hcsv].
      apply in_window_spec in Hwin as (m & Hm & Hlo & Hhi).
      by exists f, m.
    - intros (f & m & Hf & Hcsv & Hm & Hlo & Hhi).
      exists (path, f). split; [done |]. apply filter_In. split.
      + by apply list_elem_of_In, elem_of_glob_csv.
      + apply in_window_spec. by exists m. }
  split; [exact Hmem |]. split; [by rewrite Hrun' |].
  intros path f Hf Hcsv Hnone. split.
  - simpl. apply elem_of_app. right. eapply Hlog; [|exact Hnone].
    by apply elem_of_glob_csv.
  - intros Hin. apply Hmem in Hin as (f' & m & Hf' & _ & Hm & _).
    congruence.
Qed.

(** C8 as stated fails: at time 1000.9 a file modified at 998.5 is older
    than two seconds, and is not returned, [int(now - 2)] being 998; and a
    scan with a limit returns no more files than the limit. *)
Lemma find_files_in_path_counterexample :
  let w := Examples.world_of
             {[ "a.csv" := Examples.good_file (9985 # 10) ]} (10009 # 10) in
  let w2 := Examples.world_of
              {[ "a.csv" := Examples.good_file (100 # 1);
                 "b.csv" := Examples.good_file (200 # 1) ]} (1000 # 1) in
  ((inject_Z 0 < 9985 # 10)%Q /\ (9985 # 10 < now w - inject_Z 2)%Q
   /\ (find_files_in_path 0 None true w).2 = Return [])
  /\ (find_files_in_path 0 None true w2).2 = Return ["b.csv"; "a.csv"]
  /\ (find_files_in_path 0 (Some 1%nat) true w2).2 = Return ["b.csv"].
Proof. vm_compute. repeat split; reflexivity. Qed.

Lemma Sorted_take {A} (R : relation A) (l : list A) :
  Sorted R l -> forall k, Sorted R (take k l).
Proof.
  induction 1 as [|x l Hs IH Hhd]; intros k.
  - by rewrite take_nil.
  - destruct k as [|k]; simpl; [constructor |].
    constructor; [apply IH |].
    destruct Hhd as [|y l Hxy]; destruct k; simpl; by constructor.
Qed.

(** X13: the order of a scan is the order of the file names, descending
    when [newest_first] is set. *)
Lemma find_files_in_path_ordered_by_name after_timestamp limit newest_first w :
  exists paths,
    (find_files_in_path after_timestamp limit newest_first w).2 = Return paths
    /\ Sorted (fun a b => (if newest_first
                           then String.leb b a else String.leb a b) = true)
              paths.
Proof.
  destruct (find_files_in_path_run after_timestamp limit newest_first w)
    as (lg & Hrun & _).
  cbv zeta in Hrun. rewrite Hrun. eexists. split; [reflexivity |].
  set (all := sorted String.leb newest_first _).
  assert (Hs : Sorted (fun a b => (if newest_first
                                   then String.leb b a
                                   else String.leb a b) = true) all).
  { unfold all, sorted. apply sort_by_Sorted. intros a b.
    destruct newest_first; apply String.leb_total. }
  destruct limit as [[|n]|]; try exact Hs. by apply Sorted_take.
Qed.

(** C3 fails in the code: the scan orders the paths themselves, that is
    the file names, and not the modification times.  Here [b.csv] is the
    older file: live mode puts it first, historical mode puts the newer
    [a.csv] first.  The scanner of the prototype ordered by modification
    time. *)
Theorem find_files_in_path_ignores_mtime :
  let w := Examples.world_of
             {[ "a.csv" := Examples.good_file (200 # 1);
                "b.csv" := Examples.good_file (100 # 1) ]} (1000 # 1) in
  mtime_of w "a.csv" = Some (200 # 1)
  /\ mtime_of w "b.csv" = Some (100 # 1)
  /\ (find_files_in_path 0 (Some 20%nat) true w).2 = Return ["b.csv"; "a.csv"]
  /\ (find_files_in_path 0 None false w).2 = Return ["a.csv"; "b.csv"]
  /\ (Prototype.find_new_files (0 # 1) w).2 = Return ["a.csv"; "b.csv"].
Proof. vm_compute. repeat split; reflexivity. Qed.

(** ** Disposition of the files *)

(** [process_csv_file] ends in [sys.exit(2)] or in an earlier exception:
    it never returns, so the [else] branch of [process_files], which
    deletes the file, is never taken. *)
Lemma process_csv_file_never_returns client csv_path w :
  exists e, (process_csv_file client csv_path w).2 = Raise e.
Proof.
  assert (Hkeeps : keeps same_folder (process_csv_file client csv_path)
                         (fun _ => False)).
  { apply (keeps_process_csv_file same_folder)
      with (allowed := fun _ => True); done. }
  destruct (Hkeeps w) as [_ Hpost].
  destruct ((process_csv_file client csv_path w).2) as [a|e]; [done |].
  by exists e.
Qed.

(** Without quarantine no file leaves the input folder, whatever the
    outcome of its processing. *)
Lemma process_files_keeps_folder client paths w :
  folder (process_files client paths false w).1 = folder w.
Proof.
  assert (Hkeeps : keeps same_folder (process_files client paths false)
                         (fun _ => True)).
  { apply (keeps_process_files same_folder)
      with (allowed := fun _ => True); done. }
  by destruct (Hkeeps w).
Qed.

(** C1 fails in the code: a file that parses and is delivered makes
    [process_csv_file] exit the interpreter with status 2; the exit is not
    an [Exception], so it passes through both handlers of [process_files]:
    the file is not deleted and the next file of the batch is not
    processed. *)
Theorem process_files_exits_after_success :
  let w := Examples.world_of
             {[ "a.csv" := Examples.good_file (100 # 1);
                "b.csv" := Examples.good_file (200 # 1) ]} (1000 # 1) in
  let r := process_files Examples.ok_client ["a.csv"; "b.csv"] true w in
  r.2 = Raise (SystemExit 2)
  /\ folder r.1 = folder w
  /\ failed_folder r.1 = None
  /\ datapoint_posts (posted r.1)
     = [[mkTimeseriesWithDatapoints
           "flow" [mkDatapoint 1550076300000 (PyFin false 125 (-1))]]]
  /\ logged r.1 = [(INFO, MsgProcessed 1 "a.csv")].
Proof. vm_compute. repeat split; reflexivity. Qed.

(** A file whose parsing raises is moved to failed/ when quarantine is on
    and stays in place when it is off; the loop goes on with the next
    file. *)
Lemma process_files_failure_example :
  let w := Examples.world_of
             {[ "a.csv" := Examples.bad_file (100 # 1);
                "b.csv" := Examples.bad_file (200 # 1) ]} (1000 # 1) in
  let moved := process_files Examples.ok_client ["a.csv"; "b.csv"] true w in
  let kept := process_files Examples.ok_client ["a.csv"; "b.csv"] false w in
  moved.2 = Return tt
  /\ folder moved.1 = ∅
  /\ failed_folder moved.1 = Some (folder w)
  /\ kept.2 = Return tt
  /\ folder kept.1 = folder w
  /\ logged kept.1 = [(ERROR, MsgParsingFailed "a.csv" OtherError);
                      (ERROR, MsgParsingFailed "b.csv" OtherError)].
Proof. vm_compute. repeat split; reflexivity. Qed.

(** ** The driver *)

Section DriverFacts.
Variable surroundings : nat -> gmap string file * Q -> gmap string file * Q.
Variable interrupted : nat -> bool.
Variable client : CogniteClient.
Variable start_timestamp : Z.
Variable failed_path : bool.

Local Abbreviation SS := (scans_since start_timestamp).

Lemma keeps_find_files_in_path limit newest_first :
  keeps (scans_since start_timestamp)
        (find_files_in_path start_timestamp limit newest_first)
        (fun _ => True).
Proof.
  intros w.
  destruct (find_files_in_path_run start_timestamp limit newest_first w)
    as (lg & Hrun & _).
  cbv zeta in Hrun. rewrite Hrun. split; [|done]. by exists 1%nat.
Qed.

Lemma keeps_process_files_scans paths :
  keeps (scans_since start_timestamp)
        (process_files client paths failed_path) (fun _ => True).
Proof.
  apply (keeps_process_files (scans_since start_timestamp))
    with (allowed := fun _ => True);
    try done; intros; exists 0%nat; simpl; by rewrite app_nil_r.
Qed.

Lemma keeps_sleep cycle :
  keeps (scans_since start_timestamp)
        (sleep surroundings interrupted cycle) (fun _ => True).
Proof.
  intros w. unfold sleep.
  destruct (surroundings cycle (folder w, now w)) as [f t]. simpl.
  split; [|by destruct (interrupted cycle)].
  exists 0%nat. by rewrite app_nil_r.
Qed.

Lemma keeps_live_loop fuel :
  forall cycle,
    keeps (scans_since start_timestamp)
          (live_loop surroundings interrupted client start_timestamp
                     failed_path fuel cycle)
          (fun _ => True).
Proof.
  induction fuel as [|fuel IH]; intros cycle; simpl.
  - by apply (keeps_ret SS).
  - eapply (keeps_bind SS); [apply keeps_find_files_in_path |].
    intros paths _. eapply (keeps_bind SS) with (mid := fun _ => True).
    { destruct paths; [by apply (keeps_ret SS) |].
      apply keeps_process_files_scans. }
    intros _ _. eapply (keeps_bind SS); [apply keeps_sleep |].
    intros _ _. apply IH.
Qed.

(** C2: in live mode every scan is handed [start_timestamp]: the
    watermark is the same in all cycles, so it never decreases, and it
    never moves past the modification time of any file, disposed of or
    not. *)
Theorem live_watermark_never_moves fuel w :
  exists new,
    scanned (extract_data_points surroundings interrupted client true
               start_timestamp failed_path fuel w).1
    = scanned w ++ new
    /\ Forall (fun t => t = start_timestamp) new
    /\ Sorted Z.le new
    /\ (forall k a b,
          new !! k = Some a -> new !! S k = Some b -> a <= b /\ b = a).
Proof.
  assert (Hkeeps :
    keeps (scans_since start_timestamp)
          (extract_data_points surroundings interrupted client true
             start_timestamp failed_path fuel) (fun _ => True)).
  { unfold extract_data_points. apply (keeps_try_except SS).
    - apply keeps_live_loop.
    - intros e. eapply (keeps_bind SS) with (mid := fun _ => True).
      + intros w0. split; [|done]. exists 0%nat. simpl.
        by rewrite app_nil_r.
      + intros _ _. by apply (keeps_ret SS). }
  destruct (Hkeeps w) as [[k Hk] _].
  exists (replicate k start_timestamp). split; [exact Hk |].
  assert (Hall : Forall (fun t => t = start_timestamp)
                        (replicate k start_timestamp)).
  { apply Forall_replicate; done. }
  split; [exact Hall |]. split.
  - clear Hk Hall. induction k as [|k IH]; simpl; [constructor |].
    constructor; [exact IH |]. destruct k; simpl; constructor; lia.
  - intros i a b Ha Hb.
    apply lookup_replicate in Ha as [-> _].
    apply lookup_replicate in Hb as [-> _]. split; [lia | done].
Qed.
End DriverFacts.

(** Live mode for three cycles, then an interrupt: the files that fail stay
    in place and are taken up again in every later cycle, and every scan
    starts from the same timestamp. *)
Example live_mode_example :
  let r := extract_data_points Examples.arrivals (fun c => (c =? 2)%nat)
             Examples.ok_client true 5 false 10
             (Examples.world_of ∅ (1000 # 1)) in
  r.2 = Return (Some tt)
  /\ scanned r.1 = [5; 5; 5]
  /\ logged r.1 = [(ERROR, MsgParsingFailed "f0.csv" OtherError);
                   (ERROR, MsgParsingFailed "f1.csv" OtherError);
                   (ERROR, MsgParsingFailed "f0.csv" OtherError);
                   (WARNING, MsgExtractorStopped)]
  /\ now r.1 == 1009 # 1.
Proof. vm_compute. repeat split; reflexivity. Qed.

(** ** Python strings and numbers: examples *)

Example strip_example : PyStr.strip "  a b	" = "a b".
Proof. reflexivity. Qed.

Example rpartition_example :
  PyStr.rpartition ":" "a:b:c" = ("a:b", ":", "c").
Proof. reflexivity. Qed.

Example float_of_str_examples :
  PyNum.float_of_str "12.5" = Some (PyFin false 125 (-1))
  /\ PyNum.float_of_str " -1_0.e+3 " = Some (PyFin true 10 3)
  /\ PyNum.float_of_str "12,5" = None
  /\ PyNum.float_of_str "" = None
  /\ PyNum.float_of_str "1e" = None
  /\ PyNum.float_of_str "." = None
  /\ PyNum.float_of_str "1_" = None
  /\ PyNum.float_of_str "-Infinity" = Some (PyInf true)
  /\ PyNum.float_of_str "nan" = Some PyNaN.
Proof. repeat split; reflexivity. Qed.

Example py_int_examples :
  py_int (IdxStr " 15500 ") = Return 15500
  /\ py_int (IdxFloat (PyFin true 15507 (-1))) = Return (-1550)
  /\ py_int (IdxFloat PyNaN) = Raise ValueError
  /\ py_int (IdxStr "1.5") = Raise ValueError.
Proof. repeat split; reflexivity. Qed.

(** ** The count of data points *)

Lemma points_in_app l1 l2 : points_in (l1 ++ l2) = (points_in l1 + points_in l2)%nat.
Proof. apply sum_list_with_app. Qed.

Lemma points_sent_app l1 l2 :
  points_sent (l1 ++ l2) = (points_sent l1 + points_sent l2)%nat.
Proof.
  unfold points_sent, datapoint_posts. by rewrite omap_app, sum_list_with_app.
Qed.

Lemma points_sent_registration (cache : gmap string string) k col :
  points_sent
    match cache !! k with
    | None => [PostTimeSeries [new_time_series col]]
    | Some _ => []
    end = 0%nat.
Proof. by destruct (cache !! k). Qed.

(** The cell parser writes to the log and to nothing else, however it
    ends. *)
Lemma create_data_points_from_frame values :
  forall i timestamps acc w,
    exists lg,
      (create_data_points_from i values timestamps acc w).1
      = set_logged (logged w ++ lg) w.
Proof.
  induction values as [|c values IH]; intros i timestamps acc w; simpl.
  - exists []. by rewrite set_logged_nil.
  - destruct (notnull c); [|apply IH].
    destruct (convert_float c) as [v|e].
    + destruct (timestamps !! i); [apply IH |].
      exists []. by rewrite set_logged_nil.
    + destruct e; try (exists []; by rewrite set_logged_nil).
      unfold bind, log. simpl.
      destruct (IH (S i) timestamps acc
                   (set_logged (logged w ++ [(INFO, MsgExn ValueError)]) w))
        as [lg Hlg].
      exists ((INFO, MsgExn ValueError) :: lg).
      rewrite Hlg. by rewrite set_logged_app.
Qed.

(** The loop body leaves the gauge of all data points alone. *)
Lemma process_column_all_data_points_gauge client timestamps col locals w :
  all_data_points_gauge
    (prometheus (process_column client timestamps col locals w).1)
  = all_data_points_gauge (prometheus w).
Proof.
  destruct locals as [cur n]. destruct col as [col values].
  destruct (flush_when_full_run client cur w) as (w1 & H1 & _ & _ & Hg1).
  destruct (register_when_unknown_run client col w1)
    as (w2 & H2 & _ & _ & _ & _ & Hg2).
  unfold process_column. cbn [fst snd].
  rewrite (bind_Return _ _ _ _ _ H1).
  unfold get_cache at 1. unfold bind at 1.
  rewrite (bind_Return _ _ _ _ _ H2).
  rewrite <- Hg1, <- Hg2.
  destruct (create_data_points_from_frame values 0 timestamps [] w2)
    as [lg Hlg].
  unfold bind at 1. fold (create_data_points values timestamps) in Hlg.
  destruct (create_data_points values timestamps w2) as [w3 [dps|e]];
    simpl in Hlg; subst w3; [|done].
  destruct dps as [|dp dps]; [done |].
  unfold get_cache, bind. simpl.
  by destruct (time_series_cache w2 !! external_id_of col).
Qed.

Lemma process_columns_all_data_points_gauge client timestamps cols :
  forall locals w,
    all_data_points_gauge
      (prometheus (process_columns client timestamps cols locals w).1)
    = all_data_points_gauge (prometheus w).
Proof.
  induction cols as [|col cols IH]; intros locals w; [done |].
  simpl. unfold bind.
  pose proof (process_column_all_data_points_gauge client timestamps col
                locals w) as Hcol.
  destruct (process_column client timestamps col locals w) as [w1 [l1|e]];
    simpl in Hcol; [by rewrite IH | done].
Qed.

(** Over columns of strings and nulls the loop returns; the count grows by
    the points of the columns, and each of these points is in a call sent
    or in the buffer. *)
Lemma process_columns_object client timestamps cols :
  forall cur n w,
    Forall (object_column timestamps) cols ->
    let total :=
      sum_list_with (fun col => length (points_of col.2 timestamps)) cols in
    exists w' buffer new,
      process_columns client timestamps cols (cur, n) w
      = (w', Return (buffer, (n + total)%nat))
      /\ posted w' = posted w ++ new
      /\ (points_sent new + points_in buffer = points_in cur + total)%nat.
Proof.
  induction cols as [|[col values] cols IH]; intros cur n w Hobj; cbv zeta.
  - exists w, cur, []. simpl. rewrite app_nil_r, !Nat.add_0_r. done.
  - apply Forall_cons in Hobj as [[Hc Hlen] Hobj]. simpl in Hc, Hlen.
    destruct (process_column_yields client timestamps col values
                (points_of values timestamps) cur n w
                (create_data_points_object values timestamps Hc Hlen))
      as (w1 & Hrun & Hposted & _).
    cbv zeta in Hrun, Hposted.
    match type of Hrun with _ = (_, Return ?loc) =>
      destruct (IH loc.1 loc.2 w1 Hobj) as (w' & buffer & new & Hrun' & Hp' & Hsum)
    end.
    cbv zeta in Hrun', Hsum.
    exists w', buffer. eexists. simpl.
    rewrite (bind_Return _ _ _ _ _ Hrun).
    split; [|split; [by rewrite Hp', Hposted, <- !app_assoc |]].
    + destruct (points_of values timestamps) as [|dp dps] eqn:Hpts; simpl in *.
      * exact Hrun'.
      * rewrite Hrun'. do 3 f_equal. lia.
    + rewrite !points_sent_app, points_sent_registration.
      destruct (BATCH_MAX <=? length cur)%nat;
        destruct (points_of values timestamps) as [|dp dps] eqn:Hpts;
        simpl in *; rewrite ?points_in_app in Hsum;
        unfold points_sent, points_in in *; simpl in *; lia.
Qed.

(** X1: a file whose index converts and whose columns hold strings and
    nulls is processed to the end: the log line reports as many data points
    as the append calls of the file have sent, the gauge of all data points
    grows by that number, and the function exits with status 2. *)
Theorem process_csv_file_count client csv_path f df timestamps w :
  folder w !! csv_path = Some f ->
  read_csv f = Return df ->
  timestamps_of (index df) = Return timestamps ->
  Forall (object_column timestamps) (columns df) ->
  let total :=
    sum_list_with (fun col => length (points_of col.2 timestamps))
                  (columns df) in
  exists w' new,
    process_csv_file client csv_path w = (w', Raise (SystemExit 2))
    /\ posted w' = posted w ++ new
    /\ points_sent new = total
    /\ last (logged w') = Some (INFO, MsgProcessed total csv_path)
    /\ all_data_points_gauge (prometheus w')
       = (all_data_points_gauge (prometheus w) + total)%nat.
Proof.
  intros Hf Hdf Hts Hobj. cbv zeta.
  destruct (process_columns_object client timestamps (columns df) [] 0%nat w Hobj)
    as (w1 & buffer & new & Hrun & Hposted & Hsum).
  cbv zeta in Hrun, Hsum. simpl in Hrun, Hsum.
  pose proof (process_columns_all_data_points_gauge client timestamps
                (columns df) ([], 0%nat) w) as Hg.
  rewrite Hrun in Hg. simpl in Hg.
  unfold process_csv_file.
  assert (Hread : pandas_read_csv csv_path w = (w, Return df)).
  { unfold pandas_read_csv. by rewrite Hf, Hdf. }
  rewrite (bind_Return _ _ _ _ _ Hread).
  unfold lift at 1. unfold bind at 1. rewrite Hts.
  rewrite (bind_Return _ _ _ _ _ Hrun). cbn [fst snd].
  destruct buffer as [|e buffer].
  - unfold ret at 1. unfold bind, log, update_prometheus, raise. simpl.
    eexists _, new. split; [reflexivity |]. simpl.
    rewrite Hposted, Hg, last_snoc. unfold points_in in Hsum. simpl in Hsum.
    repeat split; lia.
  - destruct (log_error_call_run client (PostDatapoints (e :: buffer)) w1)
      as (w2 & o & Hflush & Hp2 & _ & Hg2 & _).
    rewrite (bind_Return _ _ _ _ _ Hflush).
    unfold bind, log, update_prometheus, raise. simpl.
    eexists _, (new ++ [PostDatapoints (e :: buffer)]).
    split; [reflexivity |]. simpl.
    rewrite Hp2, Hposted, Hg2, Hg, last_snoc, <- app_assoc, points_sent_app.
    repeat split.
    unfold points_sent at 2. unfold points_in in *. simpl in *. lia.
Qed.

Lemma process_csv_file_count_witness :
  let w := Examples.world_of
             {[ "a.csv" := Examples.good_file (100 # 1) ]} (1000 # 1) in
  exists w' new,
    process_csv_file Examples.ok_client "a.csv" w = (w', Raise (SystemExit 2))
    /\ posted w' = posted w ++ new
    /\ points_sent new = 1%nat
    /\ last (logged w') = Some (INFO, MsgProcessed 1 "a.csv").
Proof.
  destruct (process_csv_file_count Examples.ok_client "a.csv"
              (Examples.good_file (100 # 1)) Examples.good_frame
              [1550076300000; 1550076301000]
              (Examples.world_of
                 {[ "a.csv" := Examples.good_file (100 # 1) ]} (1000 # 1)))
    as (w' & new & Hrun & Hposted & Hsent & Hlog & _).
  - reflexivity.
  - reflexivity.
  - reflexivity.
  - repeat constructor.
  - exists w', new. exact (conj Hrun (conj Hposted (conj Hsent Hlog))).
Defined.

(** ** Composing the processing of files *)

#[local] Instance registry_grows_preorder : PreOrder registry_grows.
Proof.
  split.
  - intros w. exists []. rewrite app_nil_r.
    split; [done |]. split; [constructor |]. split; [|done].
    intros k Hid. by apply elem_of_nil in Hid.
  - intros w1 w2 w3 (n1 & Hp1 & Hd1 & Hr1 & Hk1) (n2 & Hp2 & Hd2 & Hr2 & Hk2).
    exists (n1 ++ n2). split; [by rewrite Hp2, Hp1, app_assoc |].
    unfold registered_ids in *. rewrite flat_map_app.
    split; [|split].
    + apply NoDup_app. split; [done |]. split; [|done].
      intros k Hin1 Hin2.
      destruct (Hr1 k Hin1) as [_ [nm Hnm]].
      destruct (Hr2 k Hin2) as [Hnone _]. congruence.
    + intros k Hid. apply elem_of_app in Hid as [Hid|Hid].
      * destruct (Hr1 k Hid) as [Hnone [nm Hnm]]. split; [done |].
        exists nm. by apply Hk2.
      * destruct (Hr2 k Hid) as [Hnone Hsome]. split; [|done].
        destruct (time_series_cache w1 !! k) as [nm|] eqn:Hc; [|done].
        by rewrite (Hk1 k nm Hc) in Hnone.
    + intros k nm Hc. by apply Hk2, Hk1.
Qed.

#[local] Instance same_files_preorder : PreOrder same_files.
Proof.
  split; [done |].
  intros w1 w2 w3 [H1 H1'] [H2 H2']. unfold same_files. split; congruence.
Qed.

#[local] Instance files_kept_preorder : PreOrder files_kept.
Proof.
  split.
  - intros w path. destruct (folder w !! path); [left |]; done.
  - intros w1 w2 w3 H12 H23 path.
    specialize (H12 path). specialize (H23 path).
    destruct (folder w1 !! path) as [f|].
    + destruct H12 as [[Hf Hl]|[Hf Hl]]; rewrite Hf in H23.
      * destruct H23 as [[Hf' Hl']|[Hf' Hl']]; [left | right];
          split; congruence.
      * destruct H23 as [Hf' Hl']. right. split; congruence.
    + destruct H12 as [Hf Hl]. rewrite Hf in H23.
      destruct H23 as [Hf' Hl']. split; congruence.
Qed.

Lemma same_files_kept w w' : same_files w w' -> files_kept w w'.
Proof.
  intros [Hf Hd] path. unfold failed_lookup. rewrite Hf, Hd.
  destruct (folder w !! path); [left |]; done.
Qed.

Lemma keeps_post {A} (R R' : relation world) (m : M A) (post : A -> Prop) :
  keeps R m (fun _ => True) -> keeps R' m post -> keeps R m post.
Proof.
  intros H1 H2 w. destruct (H1 w) as [Hw _]. destruct (H2 w) as [_ Hp].
  done.
Qed.

Section Compose.
Context (R : relation world) `{!PreOrder R}.
Variable failed_path : bool.
Hypothesis R_log : forall lv msg, keeps R (log lv msg) (fun _ => True).
Hypothesis R_prometheus :
  forall f, keeps R (update_prometheus f) (fun _ => True).
Hypothesis R_column :
  forall client timestamps col cur n,
    (length cur <= BATCH_MAX)%nat ->
    keeps R (process_column client timestamps col (cur, n))
          (fun locals => (length locals.1 <= BATCH_MAX)%nat).
Hypothesis R_flush :
  forall client cur,
    keeps R (_log_error (call client (PostDatapoints cur))) (fun _ => True).
Hypothesis R_move :
  failed_path = true ->
  forall path,
    keeps R (mkdir_failed ;; replace_into_failed path) (fun _ => True).

Lemma compose_process_columns client timestamps cols :
  forall cur n,
    (length cur <= BATCH_MAX)%nat ->
    keeps R (process_columns client timestamps cols (cur, n))
          (fun _ => True).
Proof.
  induction cols as [|col cols IH]; intros cur n Hcur; simpl.
  - by apply (keeps_ret R).
  - eapply (keeps_bind R); [by apply R_column |].
    intros [cur' n'] Hcur'. by apply IH.
Qed.

Lemma compose_process_csv_file client csv_path :
  keeps R (process_csv_file client csv_path) (fun _ => False).
Proof.
  assert (Hkeeps : keeps R (process_csv_file client csv_path) (fun _ => True)).
  { unfold process_csv_file.
    eapply (keeps_bind R) with (mid := fun _ => True).
    { intros w. unfold pandas_read_csv.
      destruct (folder w !! csv_path) as [f|]; simpl; [|by split].
      split; [done |]. by destruct (read_csv f). }
    intros df _. eapply (keeps_bind R); [apply (keeps_lift R) |].
    intros timestamps _.
    eapply (keeps_bind R);
      [apply compose_process_columns; simpl; unfold BATCH_MAX; lia |].
    intros [cur n] _. simpl.
    eapply (keeps_bind R) with (mid := fun _ => True).
    { destruct cur as [|e cur]; [by apply (keeps_ret R) | apply R_flush]. }
    intros _ _. eapply (keeps_bind R); [apply R_log |].
    intros _ _. eapply (keeps_bind R); [apply R_prometheus |].
    intros _ _. eapply (keeps_bind R); [apply R_prometheus |].
    intros _ _. apply (keeps_raise R). }
  intros w. destruct (Hkeeps w) as [Hw _]. split; [done |].
  destruct (process_csv_file_never_returns client csv_path w) as [e ->].
  done.
Qed.

Lemma compose_process_files client paths :
  keeps R (process_files client paths failed_path) (fun _ => True).
Proof.
  induction paths as [|path paths IH]; simpl.
  - by apply (keeps_ret R).
  - eapply (keeps_bind R) with (mid := fun _ => True); [|intros _ _; exact IH].
    apply (keeps_try_except R); [|intros e; apply R_log].
    eapply (keeps_try_except_else R).
    + apply compose_process_csv_file.
    + intros e. eapply (keeps_bind R); [apply R_log |]. intros _ _.
      destruct failed_path eqn:Hfp; [by apply R_move | by apply (keeps_ret R)].
    + intros a [].
Qed.
End Compose.

(** The move of a file to failed/ touches the two folders only; the file
    arrives unchanged, or nothing moves. *)
Lemma move_effects path w :
  let w' := ((mkdir_failed ;; replace_into_failed path) w).1 in
  files_kept w w'
  /\ posted w' = posted w
  /\ time_series_cache w' = time_series_cache w
  /\ scanned w' = scanned w.
Proof.
  cbv zeta. unfold bind, mkdir_failed, replace_into_failed.
  assert (Hrefl : files_kept w w) by reflexivity.
  destruct (failed_folder w) as [d|] eqn:Hd; simpl.
  - rewrite Hd. destruct (folder w !! path) as [f|] eqn:Hf; simpl; [|done].
    split; [|done]. intros p. unfold failed_lookup. simpl. rewrite Hd. simpl.
    destruct (decide (p = path)) as [->|Hne].
    + rewrite Hf, lookup_delete_eq, lookup_insert_eq. by right.
    + rewrite lookup_delete_ne, lookup_insert_ne by done.
      destruct (folder w !! p); [left |]; done.
  - destruct (folder w !! "failed") eqn:Hfailed; simpl; [done |].
    destruct (folder w !! path) as [f|] eqn:Hf; simpl.
    + split; [|done]. intros p. unfold failed_lookup. simpl. rewrite Hd. simpl.
      destruct (decide (p = path)) as [->|Hne].
      * rewrite Hf, lookup_delete_eq, lookup_insert_eq. by right.
      * rewrite lookup_delete_ne, lookup_insert_ne by done.
        rewrite lookup_empty. destruct (folder w !! p); [left |]; done.
    + split; [|done]. intros p. unfold failed_lookup. simpl. rewrite Hd. simpl.
      rewrite lookup_empty. destruct (folder w !! p); [left |]; done.
Qed.

(** What the loop body does to the calls and to the cache, however it
    ends. *)
Lemma process_column_effects client timestamps col values cur n w :
  let w' := (process_column client timestamps (col, values) (cur, n) w).1 in
  let external_id := external_id_of col in
  posted w'
  = posted w
    ++ (if (BATCH_MAX <=? length cur)%nat then [PostDatapoints cur] else [])
    ++ match time_series_cache w !! external_id with
       | None => [PostTimeSeries [new_time_series col]]
       | Some _ => []
       end
  /\ time_series_cache w'
     = match time_series_cache w !! external_id with
       | None => <[external_id := name_of col]> (time_series_cache w)
       | Some _ => time_series_cache w
       end.
Proof.
  cbv zeta.
  destruct (flush_when_full_run client cur w) as (w1 & H1 & Hp1 & Hc1 & _).
  destruct (register_when_unknown_run client col w1)
    as (w2 & H2 & Hp2 & Hc2 & _).
  cbv zeta in H1, Hp1, H2, Hp2, Hc2. rewrite Hc1 in Hp2, Hc2.
  rewrite Hp1, <- app_assoc in Hp2. rewrite <- Hp2, <- Hc2. clear Hp2 Hc2.
  destruct (process_column client timestamps (col, values) (cur, n) w)
    as [w' o] eqn:Hrun.
  unfold process_column in Hrun. cbn [fst snd] in Hrun.
  rewrite (bind_Return _ _ _ _ _ H1) in Hrun.
  unfold get_cache at 1 in Hrun. unfold bind at 1 in Hrun.
  rewrite (bind_Return _ _ _ _ _ H2) in Hrun.
  destruct (create_data_points_from_frame values 0 timestamps [] w2)
    as [lg Hlg].
  unfold bind at 1 in Hrun. fold (create_data_points values timestamps) in Hlg.
  destruct (create_data_points values timestamps w2) as [w3 [dps|e]];
    simpl in Hlg; subst w3.
  - destruct dps as [|dp dps].
    + injection Hrun as <- _. done.
    + unfold get_cache, bind in Hrun. simpl in Hrun.
      destruct (time_series_cache w2 !! external_id_of col);
        injection Hrun as <- _; done.
  - injection Hrun as <- _. done.
Qed.

Lemma keeps_mono {A} (R R' : relation world) (m : M A) (post : A -> Prop) :
  (forall w w', R w w' -> R' w w') -> keeps R m post -> keeps R' m post.
Proof. intros Hsub Hm w. destruct (Hm w) as [Hw Hp]. auto. Qed.

(** The loop body touches neither folder, and keeps the buffer within
    [BATCH_MAX]. *)
Lemma same_files_column client timestamps col cur n :
  (length cur <= BATCH_MAX)%nat ->
  keeps same_files (process_column client timestamps col (cur, n))
        (fun locals => (length locals.1 <= BATCH_MAX)%nat).
Proof.
  intros Hcur.
  by apply (keeps_process_column same_files) with (allowed := fun _ => True).
Qed.

Lemma registry_grows_column client timestamps col cur n :
  (length cur <= BATCH_MAX)%nat ->
  keeps registry_grows (process_column client timestamps col (cur, n))
        (fun locals => (length locals.1 <= BATCH_MAX)%nat).
Proof.
  intros Hcur.
  apply (keeps_post registry_grows same_files);
    [|by apply same_files_column].
  intros w. split; [|by destruct (process_column _ _ _ _ _).2].
  destruct col as [col values].
  destruct (process_column_effects client timestamps col values cur n w)
    as [Hp Hc].
  cbv zeta in Hp, Hc. eexists. split; [exact Hp |].
  unfold registered_ids. rewrite flat_map_app.
  replace (flat_map _ (if (BATCH_MAX <=? length cur)%nat
                       then [PostDatapoints cur] else []))
    with (@nil string) by (by destruct (BATCH_MAX <=? length cur)%nat).
  rewrite Hc. simpl.
  destruct (time_series_cache w !! external_id_of col) as [nm|] eqn:Hmiss;
    simpl.
  - split; [constructor |]. split; [|done].
    intros k Hid. by apply elem_of_nil in Hid.
  - split; [apply NoDup_singleton |]. split.
    + intros k Hid. apply list_elem_of_singleton in Hid as ->.
      split; [done |]. exists (name_of col). apply lookup_insert_eq.
    + intros k nm Hid. rewrite lookup_insert_ne; [done |]. congruence.
Qed.

Lemma registry_grows_frame w w' :
  posted w' = posted w -> time_series_cache w' = time_series_cache w ->
  registry_grows w w'.
Proof.
  intros Hp Hc. exists []. rewrite app_nil_r, Hc.
  split; [done |]. split; [constructor |]. split; [|done].
  intros k Hid. by apply elem_of_nil in Hid.
Qed.

(** X2: while files are processed, a series is registered at most once per
    external identifier and only for an identifier the cache does not hold;
    every identifier registered is in the cache afterwards, and no entry of
    the cache is changed or removed. *)
Theorem process_files_registers_once client paths failed_path w :
  let w' := (process_files client paths failed_path w).1 in
  exists new,
    posted w' = posted w ++ new
    /\ NoDup (registered_ids new)
    /\ (forall id, id ∈ registered_ids new ->
                   time_series_cache w !! id = None
                   /\ is_Some (time_series_cache w' !! id))
    /\ (forall id nm, time_series_cache w !! id = Some nm ->
                      time_series_cache w' !! id = Some nm).
Proof.
  assert (Hkeeps : keeps registry_grows
                         (process_files client paths failed_path)
                         (fun _ => True)).
  { apply (compose_process_files registry_grows).
    - intros lv msg w0. split; [|done]. by apply registry_grows_frame.
    - intros f w0. split; [|done]. by apply registry_grows_frame.
    - apply registry_grows_column.
    - intros client' cur w0.
      destruct (log_error_call_run client' (PostDatapoints cur) w0)
        as (w1 & o & Hrun & Hp & Hc & _).
      rewrite Hrun. split; [|done]. simpl. exists [PostDatapoints cur].
      rewrite Hc. split; [done |]. simpl.
      split; [constructor |]. split; [|done].
      intros k Hid. by apply elem_of_nil in Hid.
    - intros _ path w0. split; [|by destruct (_ w0).2].
      destruct (move_effects path w0) as (_ & Hp & Hc & _).
      by apply registry_grows_frame. }
  cbv zeta. by destruct (Hkeeps w).
Qed.

Lemma files_kept_process_files client paths failed_path :
  keeps files_kept (process_files client paths failed_path) (fun _ => True).
Proof.
  apply (compose_process_files files_kept).
  - intros lv msg w. split; [|done]. by apply same_files_kept.
  - intros f w. split; [|done]. by apply same_files_kept.
  - intros client' timestamps col cur n Hcur.
    apply (keeps_mono same_files); [apply same_files_kept |].
    by apply same_files_column.
  - intros client' cur w.
    destruct (log_error_call_run client' (PostDatapoints cur) w)
      as (w1 & o & Hrun & _).
    assert (Hk : keeps same_files
                       (_log_error (call client' (PostDatapoints cur)))
                       (fun _ => True)).
    { apply (keeps_log_error same_files), (keeps_call same_files)
        with (allowed := fun _ => True); done. }
    destruct (Hk w) as [Hw _]. split; [by apply same_files_kept |].
    by rewrite Hrun.
  - intros _ path w. split; [|by destruct (_ w).2].
    by destruct (move_effects path w).
Qed.


(** ** What can end the processing *)

Lemma create_data_points_from_raises values :
  forall i timestamps acc w e,
    (create_data_points_from i values timestamps acc w).2 = Raise e ->
    e = AttributeError \/ e = IndexError.
Proof.
  induction values as [|c values IH]; intros i timestamps acc w e; simpl;
    [done |].
  destruct (notnull c); [|apply IH].
  destruct c as [|s|f]; simpl.
  - intros [= <-]. by left.
  - destruct (PyNum.float_of_str (PyStr.replace "," "." s)).
    + destruct (timestamps !! i); [apply IH |]. intros [= <-]. by right.
    + unfold bind, log. simpl. apply IH.
  - intros [= <-]. by left.
Qed.

Lemma process_column_raises client timestamps col locals w e :
  (process_column client timestamps col locals w).2 = Raise e ->
  is_Exception e = true.
Proof.
  destruct locals as [cur n]. destruct col as [col values].
  destruct (flush_when_full_run client cur w) as (w1 & H1 & _).
  destruct (register_when_unknown_run client col w1) as (w2 & H2 & _).
  unfold process_column. cbn [fst snd].
  rewrite (bind_Return _ _ _ _ _ H1).
  unfold get_cache at 1. unfold bind at 1.
  rewrite (bind_Return _ _ _ _ _ H2).
  unfold bind at 1.
  pose proof (create_data_points_from_raises values 0 timestamps [] w2) as Hr.
  fold (create_data_points values timestamps) in Hr.
  destruct (create_data_points values timestamps w2) as [w3 [dps|e']];
    simpl in Hr.
  - destruct dps as [|dp dps]; [done |].
    unfold get_cache, bind. simpl.
    destruct (time_series_cache w3 !! external_id_of col); [done |].
    by intros [= <-].
  - intros [= <-]. by destruct (Hr e' eq_refl) as [-> | ->].
Qed.

Lemma process_columns_raises client timestamps cols :
  forall locals w e,
    (process_columns client timestamps cols locals w).2 = Raise e ->
    is_Exception e = true.
Proof.
  induction cols as [|col cols IH]; intros locals w e; simpl; [done |].
  unfold bind.
  pose proof (process_column_raises client timestamps col locals w) as Hcol.
  destruct (process_column client timestamps col locals w) as [w1 [l1|e1]];
    simpl in Hcol.
  - apply IH.
  - intros [= <-]. by apply Hcol.
Qed.

Lemma timestamps_of_raises idx e :
  timestamps_of idx = Raise e -> e = ValueError \/ e = OverflowError.
Proof.
  induction idx as [|o idx IH]; simpl; [done |].
  destruct (py_int o) as [z|e'] eqn:Ho.
  - destruct (timestamps_of idx); [done |]. intros [= <-]. by apply IH.
  - intros [= <-]. destruct o as [z|f|s]; simpl in Ho; [done | |].
    + destruct f; simpl in Ho; [left | right | done]; congruence.
    + unfold PyNum.int_of_str in Ho.
      repeat case_match; try done; left; congruence.
Qed.

Lemma process_csv_file_raises client csv_path w e :
  reads_raise_exceptions (folder w) ->
  (process_csv_file client csv_path w).2 = Raise e ->
  is_Exception e = true \/ e = SystemExit 2.
Proof.
  intros Htame. unfold process_csv_file.
  unfold bind at 1. unfold pandas_read_csv.
  destruct (folder w !! csv_path) as [f|] eqn:Hf;
    [|intros [= <-]; by left].
  destruct (read_csv f) as [df|e'] eqn:Hdf;
    [|intros [= <-]; left; by eapply Htame].
  unfold bind at 1. unfold lift.
  destruct (timestamps_of (index df)) as [timestamps|e'] eqn:Hts.
  2:{ intros [= <-]. left.
      by destruct (timestamps_of_raises _ _ Hts) as [-> | ->]. }
  unfold bind at 1.
  pose proof (process_columns_raises client timestamps (columns df)
                ([], 0%nat) w) as Hcols.
  destruct (process_columns client timestamps (columns df) ([], 0%nat) w)
    as [w1 [[cur n]|e']]; simpl in Hcols.
  2:{ intros [= <-]. left. by apply Hcols. }
  cbn [fst snd]. destruct cur as [|entry cur].
  - unfold bind, ret, log, update_prometheus, raise. simpl.
    intros [= <-]. by right.
  - destruct (log_error_call_run client (PostDatapoints (entry :: cur)) w1)
      as (w2 & o & Hflush & _).
    rewrite (bind_Return _ _ _ _ _ Hflush).
    unfold bind, ret, log, update_prometheus, raise. simpl.
    intros [= <-]. by right.
Qed.

Lemma files_kept_reads w w' :
  files_kept w w' ->
  reads_raise_exceptions (folder w) -> reads_raise_exceptions (folder w').
Proof.
  intros Hk Htame path f e Hf. specialize (Hk path).
  destruct (folder w !! path) as [f0|] eqn:Hf0.
  - destruct Hk as [[Hf' _]|[Hf' _]]; [|congruence].
    assert (f0 = f) as -> by congruence. by eapply Htame.
  - destruct Hk as [Hf' _]. congruence.
Qed.

(** The handling of one file returns when the processing of the file
    raised an [Exception]. *)
Lemma process_files_step_returns client path (failed_path : bool) w w1 e :
  process_csv_file client path w = (w1, Raise e) ->
  is_Exception e = true ->
  exists w2,
    try_except
      (try_except_else
         (process_csv_file client path)
         is_Exception
         (fun exc =>
            log ERROR (MsgParsingFailed path exc) ;;
            if failed_path
            then mkdir_failed ;; replace_into_failed path
            else ret tt)
         (unlink path))
      is_IOError
      (fun exc => log ERROR (MsgDeleteMoveFailed path exc)) w
    = (w2, Return tt).
Proof.
  intros Hrun Hexc. unfold try_except, try_except_else. rewrite Hrun, Hexc.
  unfold bind, log, mkdir_failed, replace_into_failed, ret.
  destruct failed_path; simpl; repeat (case_match; simpl in *; simplify_eq);
    eauto.
Qed.

Lemma process_files_raises client paths failed_path :
  forall w e,
    reads_raise_exceptions (folder w) ->
    (process_files client paths failed_path w).2 = Raise e ->
    e = SystemExit 2.
Proof.
  induction paths as [|path paths IH]; intros w e0 Htame; simpl; [done |].
  destruct (process_csv_file_never_returns client path w) as [e He].
  destruct (process_csv_file client path w) as [w1 o] eqn:Hrun.
  simpl in He. subst o.
  pose proof (process_csv_file_raises client path w e Htame) as Hraise.
  rewrite Hrun in Hraise. destruct (Hraise eq_refl) as [Hexc | ->].
  - destruct (process_files_step_returns client path failed_path w w1 e
                Hrun Hexc) as [w2 Hstep].
    rewrite (bind_Return _ _ _ _ _ Hstep). apply IH.
    eapply files_kept_reads; [|exact Htame].
    destruct (files_kept_process_files client [path] failed_path w)
      as [Hkept _].
    simpl in Hkept. by rewrite (bind_Return _ _ _ _ _ Hstep) in Hkept.
  - unfold bind, try_except, try_except_else. rewrite Hrun. simpl.
    by intros [= <-].
Qed.

(** X4: an exception raised while a file is read, converted or sent does
    not end the batch: processing files either returns or ends with the
    exit of status 2 that follows a file processed to the end. *)
Theorem process_files_outcome client paths failed_path w :
  reads_raise_exceptions (folder w) ->
  (process_files client paths failed_path w).2 = Return tt
  \/ (process_files client paths failed_path w).2 = Raise (SystemExit 2).
Proof.
  intros Htame.
  pose proof (process_files_raises client paths failed_path w) as Hr.
  destruct (process_files client paths failed_path w).2 as [[]|e].
  - by left.
  - right. f_equal. by apply Hr.
Qed.

Lemma process_files_outcome_witness :
  let w := Examples.world_of
             {[ "a.csv" := Examples.bad_file (100 # 1);
                "b.csv" := Examples.good_file (200 # 1) ]} (1000 # 1) in
  (process_files Examples.ok_client ["a.csv"; "b.csv"] true w).2 = Return tt
  \/ (process_files Examples.ok_client ["a.csv"; "b.csv"] true w).2
     = Raise (SystemExit 2).
Proof.
  apply process_files_outcome.
  intros path f e Hf He. simpl in Hf.
  apply lookup_insert_Some in Hf as [[_ <-]|[_ Hf]].
  - simpl in He. by injection He as <-.
  - apply lookup_singleton_Some in Hf as [_ <-]. done.
Defined.

Section DriverOutcome.
Variable surroundings : nat -> gmap string file * Q -> gmap string file * Q.
Variable interrupted : nat -> bool.
Variable client : CogniteClient.
Variable start_timestamp : Z.
Variable failed_path : bool.

Hypothesis surroundings_tame :
  forall cycle fo t,
    reads_raise_exceptions fo ->
    reads_raise_exceptions (surroundings cycle (fo, t)).1.

Lemma process_batch_raises (paths : list string) w :
  reads_raise_exceptions (folder w) ->
  let m := match paths with
           | [] => ret tt
           | _ => process_files client paths failed_path
           end in
  reads_raise_exceptions (folder (m w).1)
  /\ (forall e, (m w).2 = Raise e -> e = SystemExit 2).
Proof.
  intros Htame. cbv zeta. destruct paths as [|path paths]; [done |].
  split.
  - eapply files_kept_reads; [|exact Htame].
    by destruct (files_kept_process_files client (path :: paths)
                   failed_path w).
  - intros e. by apply process_files_raises.
Qed.

Lemma live_loop_raises fuel :
  forall cycle w e,
    reads_raise_exceptions (folder w) ->
    (live_loop surroundings interrupted client start_timestamp failed_path
               fuel cycle w).2 = Raise e ->
    e = SystemExit 2 \/ e = KeyboardInterrupt.
Proof.
  induction fuel as [|fuel IH]; intros cycle w e Htame; simpl; [done |].
  destruct (find_files_in_path_run start_timestamp (Some 20%nat) true w)
    as (lg & Hrun & _).
  cbv zeta in Hrun. rewrite (bind_Return _ _ _ _ _ Hrun).
  match goal with
  | |- context [match ?p with [] => ret tt | _ => _ end] =>
      destruct (process_batch_raises p
                  (set_logged (logged w ++ lg)
                     (set_scanned (scanned w ++ [start_timestamp]) w)) Htame)
        as [Htame1 Hraise1]
  end.
  cbv zeta in Htame1, Hraise1. unfold bind at 1.
  match goal with
  | |- context [let (_, _) := ?run in _] => destruct run as [w1 [[]|e1]]
  end; simpl in Htame1, Hraise1.
  2:{ intros [= <-]. left. by apply Hraise1. }
  unfold bind at 1. unfold sleep at 1.
  pose proof (surroundings_tame cycle (folder w1) (now w1) Htame1) as Htame2.
  destruct (surroundings cycle (folder w1, now w1)) as [fo t].
  simpl in Htame2. destruct (interrupted cycle).
  - intros [= <-]. by right.
  - apply IH. exact Htame2.
Qed.

(** X5: the driver ends in three ways only: it returns (in live mode after
    an interrupt, which it catches), it is still looping, or it ends with
    the exit of status 2 that follows a file processed to the end.  No
    exception of a file and no interrupt leaves it. *)
Theorem extract_data_points_outcome live_mode fuel w :
  reads_raise_exceptions (folder w) ->
  let r := extract_data_points surroundings interrupted client live_mode
             start_timestamp failed_path fuel w in
  (exists o, r.2 = Return o) \/ r.2 = Raise (SystemExit 2).
Proof.
  intros Htame. cbv zeta.
  assert (Hraise : forall e,
    (extract_data_points surroundings interrupted client live_mode
       start_timestamp failed_path fuel w).2 = Raise e -> e = SystemExit 2).
  { unfold extract_data_points, try_except.
    destruct live_mode.
    - pose proof (live_loop_raises fuel 0%nat w) as Hloop.
      destruct (live_loop surroundings interrupted client start_timestamp
                  failed_path fuel 0 w) as [w1 [o|e1]]; [done |].
      simpl in Hloop. destruct (Hloop e1 Htame eq_refl) as [-> | ->]; simpl.
      + by intros e [= <-].
      + done.
    - destruct (find_files_in_path_run start_timestamp None false w)
        as (lg & Hrun & _).
      cbv zeta in Hrun. rewrite (bind_Return _ _ _ _ _ Hrun).
      match goal with
      | |- context [match ?p with [] => log _ _ | _ => _ end] =>
          destruct p as [|path paths]
      end.
      + done.
      + unfold bind at 1.
        match goal with
        | |- context [process_files ?c ?p ?f ?w0] =>
            pose proof (process_files_raises c p f w0) as Hraise;
            destruct (process_files c p f w0) as [w1 [[]|e1]]
        end; [done |].
        simpl in Hraise. rewrite (Hraise e1 Htame eq_refl). simpl.
        by intros e [= <-]. }
  destruct (extract_data_points _ _ _ _ _ _ _ _).2 as [o|e].
  - left. by exists o.
  - right. f_equal. by apply Hraise.
Qed.
End DriverOutcome.

Lemma extract_data_points_outcome_witness :
  let r := extract_data_points Examples.arrivals (fun c => (c =? 2)%nat)
             Examples.ok_client true 5 false 10
             (Examples.world_of ∅ (1000 # 1)) in
  (exists o, r.2 = Return o) \/ r.2 = Raise (SystemExit 2).
Proof.
  apply (extract_data_points_outcome Examples.arrivals
           (fun c => (c =? 2)%nat) Examples.ok_client 5 false).
  - intros cycle fo t Hfo path f e. unfold Examples.arrivals. simpl.
    destruct cycle as [|[|cycle]]; simpl; [| |apply Hfo];
      (intros Hf; apply lookup_insert_Some in Hf as [[_ <-]|[_ Hf]];
       [simpl; by intros [= <-] | by eapply Hfo]).
  - intros path f e Hf. done.
Defined.

(** ** Files that fail early *)

Lemma process_csv_file_early client csv_path f e w :
  folder w !! csv_path = Some f ->
  (read_csv f = Raise e
   \/ exists df, read_csv f = Return df
                 /\ timestamps_of (index df) = Raise e) ->
  process_csv_file client csv_path w = (w, Raise e).
Proof.
  intros Hf [He|(df & Hdf & Hts)]; unfold process_csv_file, bind,
    pandas_read_csv, lift; rewrite Hf.
  - by rewrite He.
  - by rewrite Hdf, Hts.
Qed.

(** X6: a file that cannot be read, or whose index cannot be converted,
    sends nothing and registers nothing.  With quarantine it is moved to
    failed/ as it is (the folder is made if needed) and with it any file of
    the same name there is replaced; without quarantine only the log
    changes.  The rest of the batch is processed from there. *)
Theorem process_files_early_failure client path rest f e w :
  folder w !! path = Some f ->
  (read_csv f = Raise e
   \/ exists df, read_csv f = Return df
                 /\ timestamps_of (index df) = Raise e) ->
  is_Exception e = true ->
  folder w !! "failed" = None ->
  let logged' := logged w ++ [(ERROR, MsgParsingFailed path e)] in
  process_files client (path :: rest) true w
  = process_files client rest true
      (set_failed_folder
         (Some (<[path := f]> (default ∅ (failed_folder w))))
         (set_folder (delete path (folder w)) (set_logged logged' w)))
  /\ process_files client (path :: rest) false w
     = process_files client rest false (set_logged logged' w).
Proof.
  intros Hf He Hexc Hdir. cbv zeta.
  pose proof (process_csv_file_early client path f e w Hf He) as Hrun.
  split; simpl; unfold bind at 1;
    unfold try_except, try_except_else; rewrite Hrun, Hexc;
    unfold bind, log, mkdir_failed, replace_into_failed, ret; simpl.
  - destruct (failed_folder w) as [d|] eqn:Hd; simpl.
    + by rewrite Hf, Hd.
    + rewrite Hdir. simpl. by rewrite Hf.
  - done.
Qed.

Lemma process_files_early_failure_witness :
  let w := Examples.world_of
             {[ "a.csv" := Examples.bad_file (100 # 1) ]} (1000 # 1) in
  let r := process_files Examples.ok_client ["a.csv"] true w in
  r.2 = Return tt
  /\ folder r.1 = ∅
  /\ failed_folder r.1 = Some {[ "a.csv" := Examples.bad_file (100 # 1) ]}
  /\ posted r.1 = [].
Proof.
  cbv zeta.
  destruct (process_files_early_failure Examples.ok_client "a.csv" []
              (Examples.bad_file (100 # 1)) OtherError
              (Examples.world_of
                 {[ "a.csv" := Examples.bad_file (100 # 1) ]} (1000 # 1)))
    as [-> _].
  - reflexivity.
  - by left.
  - reflexivity.
  - reflexivity.
  - vm_compute. repeat split; reflexivity.
Defined.

(** X7: a listed file that is gone when its turn comes is logged, once for
    the reading and, with quarantine, once more for the move that cannot
    be made; the folder failed/ is made all the same, no call is sent, and
    the batch goes on. *)
Theorem process_files_vanished_file client path rest w :
  folder w !! path = None ->
  folder w !! "failed" = None ->
  process_files client (path :: rest) true w
  = process_files client rest true
      (set_logged
         (logged w ++ [(ERROR, MsgParsingFailed path IOError);
                       (ERROR, MsgDeleteMoveFailed path IOError)])
         (set_failed_folder (Some (default ∅ (failed_folder w))) w))
  /\ process_files client (path :: rest) false w
     = process_files client rest false
         (set_logged (logged w ++ [(ERROR, MsgParsingFailed path IOError)]) w).
Proof.
  intros Hf Hdir.
  assert (Hrun : process_csv_file client path w = (w, Raise IOError)).
  { unfold process_csv_file, bind, pandas_read_csv. by rewrite Hf. }
  split; simpl; unfold bind at 1;
    unfold try_except, try_except_else; rewrite Hrun;
    unfold bind, log, mkdir_failed, replace_into_failed, ret; simpl.
  - destruct (failed_folder w) as [d|] eqn:Hd; simpl;
      rewrite ?Hdir; simpl; rewrite Hf; simpl;
      apply (f_equal (process_files client rest true));
      destruct w; unfold set_logged, set_failed_folder; simpl in *; subst;
      by rewrite <- app_assoc.
  - done.
Qed.

Lemma process_files_vanished_file_witness :
  let w := Examples.world_of ∅ (1000 # 1) in
  let r := process_files Examples.ok_client ["a.csv"] true w in
  r.2 = Return tt
  /\ failed_folder r.1 = Some ∅
  /\ logged r.1 = [(ERROR, MsgParsingFailed "a.csv" IOError);
                   (ERROR, MsgDeleteMoveFailed "a.csv" IOError)].
Proof.
  cbv zeta.
  destruct (process_files_vanished_file Examples.ok_client "a.csv" []
              (Examples.world_of ∅ (1000 # 1))) as [-> _].
  - reflexivity.
  - reflexivity.
  - vm_compute. repeat split; reflexivity.
Defined.

(** ** More on the cell parser *)

Lemma create_data_points_from_prefix values :
  forall i rest timestamps acc w,
    Forall str_or_null values ->
    (i + length values <= length timestamps)%nat ->
    exists lg,
      create_data_points_from i (values ++ rest) timestamps acc w
      = create_data_points_from (i + length values) rest timestamps
          (acc ++ points_of values (drop i timestamps))
          (set_logged (logged w ++ lg) w).
Proof.
  induction values as [|c values IH]; intros i rest timestamps acc w Hobj Hlen.
  - exists []. simpl. unfold points_of. simpl.
    by rewrite set_logged_nil, app_nil_r, Nat.add_0_r.
  - apply Forall_cons in Hobj as [Hc Hobj]. simpl in Hlen.
    destruct (lookup_lt_is_Some_2 timestamps i) as [t Ht]; [lia |].
    rewrite (drop_S _ _ _ Ht).
    assert (Hlen' : (S i + length values <= length timestamps)%nat) by lia.
    replace (i + length (c :: values))%nat with (S i + length values)%nat
      by (simpl; lia).
    destruct c as [|s|f]; [| |done]; simpl.
    + apply IH; done.
    + unfold points_of. simpl.
      destruct (PyNum.float_of_str (PyStr.replace "," "." s)) as [v|]; simpl.
      * rewrite Ht.
        destruct (IH (S i) rest timestamps (acc ++ [mkDatapoint t v]) w
                     Hobj Hlen') as [lg Hlg].
        exists lg. rewrite Hlg. by rewrite <- app_assoc.
      * unfold bind, log. simpl.
        destruct (IH (S i) rest timestamps acc
                     (set_logged (logged w ++ [(INFO, MsgExn ValueError)]) w)
                     Hobj Hlen') as [lg Hlg].
        exists ((INFO, MsgExn ValueError) :: lg).
        rewrite Hlg. by rewrite set_logged_app.
Qed.

(** X8: a cell that is a number already, in a column pandas converted, has
    no [replace]: the call raises [AttributeError] at the first such cell,
    whatever comes after it. *)
Theorem create_data_points_number_cell before f after timestamps w :
  Forall str_or_null before ->
  (length before <= length timestamps)%nat ->
  PyNum.is_nan f = false ->
  (create_data_points (before ++ CNum f :: after) timestamps w).2
  = Raise AttributeError.
Proof.
  intros Hobj Hlen Hf. unfold create_data_points.
  destruct (create_data_points_from_prefix before 0 (CNum f :: after)
              timestamps [] w Hobj) as [lg ->]; [simpl; lia |].
  simpl. by rewrite Hf.
Qed.

Lemma create_data_points_number_cell_witness :
  (create_data_points [CStr "1,5"; CNum (PyFin false 2 0); CNull] [1000; 2000; 3000]
                      quiet_world).2 = Raise AttributeError.
Proof.
  apply (create_data_points_number_cell [CStr "1,5"] (PyFin false 2 0) [CNull]).
  - repeat constructor.
  - simpl. lia.
  - reflexivity.
Defined.

(** X9: the conversion of the index gives one timestamp per row, each a
    whole number of seconds in milliseconds; an integer entry is multiplied
    by 1000, and the fraction of a float entry is dropped. *)
Theorem timestamps_of_whole_seconds idx timestamps :
  timestamps_of idx = Return timestamps ->
  length timestamps = length idx
  /\ Forall (fun t => (1000 | t)) timestamps
  /\ (forall i z, idx !! i = Some (IdxInt z) ->
                  timestamps !! i = Some (z * 1000))
  /\ (forall i neg m e, idx !! i = Some (IdxFloat (PyFin neg m e)) ->
                        timestamps !! i
                        = Some (PyNum.trunc_fin neg m e * 1000)).
Proof.
  revert timestamps. induction idx as [|o idx IH]; intros timestamps Hts;
    simpl in Hts.
  - injection Hts as <-. repeat split; [constructor | done..].
  - destruct (py_int o) as [k|] eqn:Hk; [|done].
    destruct (timestamps_of idx) as [l|] eqn:Hl; [|done].
    injection Hts as <-. destruct (IH l eq_refl) as (Hlen & Hall & Hint & Hfl).
    split; [simpl; by rewrite Hlen |].
    split; [constructor; [by exists k | done] |].
    split.
    + intros [|i] z Hi; simpl in Hi; [|by apply Hint].
      injection Hi as ->. simpl in Hk. by injection Hk as ->.
    + intros [|i] neg m e Hi; simpl in Hi; [|by eapply Hfl].
      injection Hi as ->. simpl in Hk. by injection Hk as ->.
Qed.

Lemma timestamps_of_whole_seconds_witness :
  timestamps_of [IdxInt 1550076300; IdxFloat (PyFin false 15500763017 (-1))]
  = Return [1550076300000; 1550076301000]
  /\ Forall (fun t => (1000 | t)) [1550076300000; 1550076301000].
Proof.
  split; [reflexivity |].
  apply (timestamps_of_whole_seconds
           [IdxInt 1550076300; IdxFloat (PyFin false 15500763017 (-1))]).
  reflexivity.
Defined.

(** ** More on column headers *)

Lemma rsplit1_None_inv sep l :
  PyStr.rsplit1 sep l = None -> existsb (Ascii.eqb sep) l = false.
Proof.
  induction l as [|d l IH]; simpl; [done |].
  destruct (PyStr.rsplit1 sep l) as [[h t]|]; [done |].
  destruct (Ascii.eqb d sep) eqn:Hd; [done |]. intros _.
  rewrite Ascii.eqb_sym, Hd. simpl. by apply IH.
Qed.

Lemma rsplit1_tail sep l h t :
  PyStr.rsplit1 sep l = Some (h, t) -> existsb (Ascii.eqb sep) t = false.
Proof.
  revert h t. induction l as [|c l IH]; intros h t; simpl; [done |].
  destruct (PyStr.rsplit1 sep l) as [[h' t']|] eqn:Hl.
  - intros [= <- <-]. by eapply IH.
  - destruct (Ascii.eqb c sep); [|done]. intros [= <- <-].
    by apply rsplit1_None_inv.
Qed.

Lemma lstrip_no_char c l :
  existsb (Ascii.eqb c) l = false ->
  existsb (Ascii.eqb c) (PyStr.lstrip l) = false.
Proof.
  induction l as [|d l IH]; simpl; [done |].
  intros H. destruct (PyStr.is_space d); [|done].
  apply orb_false_iff in H as [_ H]. by apply IH.
Qed.

Lemma existsb_rev {A} (P : A -> bool) l : existsb P (rev l) = existsb P l.
Proof.
  induction l as [|x l IH]; simpl; [done |].
  rewrite existsb_app, IH. simpl. rewrite orb_false_r. apply orb_comm.
Qed.

Lemma strip_no_char c s :
  contains c s = false -> contains c (PyStr.strip s) = false.
Proof.
  unfold contains, PyStr.strip, PyStr.rstrip.
  rewrite list_ascii_of_string_of_list_ascii. intros H.
  rewrite existsb_rev. apply lstrip_no_char. rewrite existsb_rev.
  by apply lstrip_no_char.
Qed.

Lemma lstrip_head l c l' :
  PyStr.lstrip l = c :: l' -> PyStr.is_space c = false.
Proof.
  induction l as [|d l IH]; simpl; [done |].
  destruct (PyStr.is_space d) eqn:Hd; [done |]. by intros [= <- <-].
Qed.

Lemma lstrip_fixed l :
  (forall c l', l = c :: l' -> PyStr.is_space c = false) ->
  PyStr.lstrip l = l.
Proof.
  destruct l as [|c l]; [done |]. intros H. simpl.
  by rewrite (H c l eq_refl).
Qed.

Lemma lstrip_idemp l : PyStr.lstrip (PyStr.lstrip l) = PyStr.lstrip l.
Proof.
  apply lstrip_fixed. intros c l' H. by eapply lstrip_head.
Qed.

Lemma lstrip_snoc m c :
  PyStr.is_space c = false -> exists y, PyStr.lstrip (m ++ [c]) = y ++ [c].
Proof.
  intros Hc. induction m as [|d m [y Hy]]; simpl.
  - rewrite Hc. by exists [].
  - destruct (PyStr.is_space d); [by exists y |]. by exists (d :: m).
Qed.

Lemma rstrip_head c l :
  PyStr.is_space c = false -> exists y, PyStr.rstrip (c :: l) = c :: y.
Proof.
  intros Hc. unfold PyStr.rstrip. simpl.
  destruct (lstrip_snoc (rev l) c Hc) as [y ->].
  exists (rev y). by rewrite rev_app_distr.
Qed.

Lemma strip_idemp s : PyStr.strip (PyStr.strip s) = PyStr.strip s.
Proof.
  unfold PyStr.strip. rewrite list_ascii_of_string_of_list_ascii. f_equal.
  set (x := PyStr.lstrip (list_ascii_of_string s)).
  assert (Hl : PyStr.lstrip (PyStr.rstrip x) = PyStr.rstrip x).
  { destruct x as [|c x'] eqn:Hx; [done |].
    destruct (rstrip_head c x') as [y Hy]; [by eapply lstrip_head |].
    rewrite Hy. apply lstrip_fixed. intros c' l' [= <- <-].
    by eapply lstrip_head. }
  rewrite Hl. unfold PyStr.rstrip. by rewrite rev_involutive, lstrip_idemp.
Qed.

(** X10: whatever the header, the series name holds no colon, and neither
    the name nor the external identifier has white space at its ends. *)
Theorem header_parts_shape col :
  contains ":" (name_of col) = false
  /\ PyStr.strip (name_of col) = name_of col
  /\ PyStr.strip (external_id_of col) = external_id_of col.
Proof.
  unfold name_of, external_id_of. split; [|by rewrite !strip_idemp].
  apply strip_no_char. unfold PyStr.rpartition, contains.
  destruct (PyStr.rsplit1 ":" (list_ascii_of_string col)) as [[h t]|] eqn:Hs;
    simpl.
  - rewrite list_ascii_of_string_of_list_ascii. by eapply rsplit1_tail.
  - by apply rsplit1_None_inv.
Qed.

(** ** More on the scanner *)

Lemma int_of_Q_floor q : (0 <= q)%Q -> PyNum.int_of_Q q = Qfloor q.
Proof.
  destruct q as [n d]. unfold Qle, PyNum.int_of_Q, Qfloor. simpl.
  intros Hn. apply Z.quot_div_nonneg; lia.
Qed.

Lemma find_files_in_path_mem after_timestamp newest_first w path :
  path ∈ sorted String.leb newest_first
           (map fst
              (List.filter
                 (fun p => in_window after_timestamp
                             (PyNum.int_of_Q (now w - inject_Z 2)) p.2)
                 (glob_csv w)))
  <-> exists f m,
        folder w !! path = Some f
        /\ PyStr.endswith path ".csv" = true
        /\ stat_mtime f = Some m
        /\ (inject_Z after_timestamp < m)%Q
        /\ (m < inject_Z (PyNum.int_of_Q (now w - inject_Z 2)))%Q.
Proof.
  unfold sorted. rewrite sort_by_Permutation.
  rewrite list_elem_of_In, in_map_iff. split.
  - intros ([p f] & <- & Hin). apply filter_In in Hin as [Hin Hwin].
    apply list_elem_of_In, elem_of_glob_csv in Hin as [Hf Hcsv].
    apply in_window_spec in Hwin as (m & Hm & Hlo & Hhi).
    by exists f, m.
  - intros (f & m & Hf & Hcsv & Hm & Hlo & Hhi).
    exists (path, f). split; [done |]. apply filter_In. split.
    + by apply list_elem_of_In, elem_of_glob_csv.
    + apply in_window_spec. by exists m.
Qed.

Lemma NoDup_map_fst_filter {A B} (P : A * B -> bool) (l : list (A * B)) :
  NoDup (map fst l) -> NoDup (map fst (List.filter P l)).
Proof.
  induction l as [|x l IH]; simpl; [done |].
  intros Hnd. apply NoDup_cons in Hnd as [Hx Hnd].
  destruct (P x); simpl; [|by apply IH].
  apply NoDup_cons. split; [|by apply IH].
  intros Hin. apply Hx. apply list_elem_of_In, in_map_iff in Hin
    as (y & Hy & Hin).
  apply filter_In in Hin as [Hin _].
  apply list_elem_of_In, in_map_iff. by exists y.
Qed.

Lemma limited_sublist {A} (limit : option nat) (l : list A) :
  match limit with
  | None | Some O => l
  | Some n => take n l
  end `sublist_of` l.
Proof. destruct limit as [[|n]|]; try done. apply sublist_take. Qed.

(** X11: a scan returns every path once, never more than a positive limit
    allows, and only entries named [*.csv] of the input folder whose
    modification time lies in the window; it changes nothing but the log. *)
Theorem find_files_in_path_sound after_timestamp limit newest_first w :
  exists w' paths,
    find_files_in_path after_timestamp limit newest_first w
    = (w', Return paths)
    /\ NoDup paths
    /\ (forall n, limit = Some (S n) -> (length paths <= S n)%nat)
    /\ (forall path,
          path ∈ paths ->
          exists f m,
            folder w !! path = Some f
            /\ PyStr.endswith path ".csv" = true
            /\ stat_mtime f = Some m
            /\ (inject_Z after_timestamp < m)%Q
            /\ (m < inject_Z (PyNum.int_of_Q (now w - inject_Z 2)))%Q)
    /\ folder w' = folder w
    /\ failed_folder w' = failed_folder w
    /\ posted w' = posted w
    /\ time_series_cache w' = time_series_cache w.
Proof.
  destruct (find_files_in_path_run after_timestamp limit newest_first w)
    as (lg & Hrun & _).
  cbv zeta in Hrun. eexists _, _. split; [exact Hrun |].
  set (all := sorted String.leb newest_first _).
  pose proof (limited_sublist limit all) as Hsub.
  split; [|split; [|split; [|done]]].
  - eapply sublist_NoDup; [|exact Hsub].
    unfold all, sorted. rewrite sort_by_Permutation.
    apply NoDup_map_fst_filter. unfold glob_csv.
    apply NoDup_map_fst_filter.
    pose proof (NoDup_fst_map_to_list (folder w)) as Hnd.
    clear -Hnd. induction (map_to_list (folder w)) as [|x l IH];
      simpl in *; [done |].
    apply NoDup_cons in Hnd as [Hx Hnd]. apply NoDup_cons.
    split; [|by apply IH]. intros Hin. apply Hx.
    apply list_elem_of_In, in_map_iff in Hin as (y & Hy & Hin).
    apply list_elem_of_fmap. exists y. split; [done |].
    by apply list_elem_of_In.
  - intros n ->. rewrite length_take. lia.
  - intros path Hin. apply (find_files_in_path_mem after_timestamp
                              newest_first w path).
    eapply elem_of_sublist; [exact Hin | exact Hsub].
Qed.

(** X12: when the clock is at two seconds or more, a scan returns no file
    modified during the last two seconds; and a file whose [stat] succeeds
    is returned by a scan without limit once its modification lies above
    [after_timestamp] and three seconds or more back. *)
Theorem find_files_in_path_quiet_period after_timestamp limit newest_first w :
  (inject_Z 2 <= now w)%Q ->
  exists paths all,
    (find_files_in_path after_timestamp limit newest_first w).2 = Return paths
    /\ (find_files_in_path after_timestamp None newest_first w).2 = Return all
    /\ (forall path, path ∈ paths ->
          exists m, mtime_of w path = Some m /\ (m < now w - inject_Z 2)%Q)
    /\ (forall path f m,
          folder w !! path = Some f ->
          PyStr.endswith path ".csv" = true ->
          stat_mtime f = Some m ->
          (inject_Z after_timestamp < m)%Q ->
          (m + inject_Z 3 <= now w)%Q ->
          path ∈ all).
Proof.
  intros Hnow.
  destruct (find_files_in_path_run after_timestamp limit newest_first w)
    as (lg & Hrun & _).
  destruct (find_files_in_path_run after_timestamp None newest_first w)
    as (lg' & Hrun' & _).
  cbv zeta in Hrun, Hrun'. rewrite Hrun, Hrun'.
  eexists _, _. split; [reflexivity |]. split; [reflexivity |].
  assert (Hpos : (0 <= now w - inject_Z 2)%Q) by lra.
  rewrite (int_of_Q_floor _ Hpos).
  pose proof (Qfloor_le (now w - inject_Z 2)) as Hfloor.
  pose proof (Qlt_floor (now w - inject_Z 2)) as Hceil.
  rewrite inject_Z_plus in Hceil.
  split.
  - intros path Hin.
    assert (Hall : path ∈ sorted String.leb newest_first
                     (map fst
                        (List.filter
                           (fun p => in_window after_timestamp
                              (PyNum.int_of_Q (now w - inject_Z 2)) p.2)
                           (glob_csv w)))).
    { rewrite (int_of_Q_floor _ Hpos).
      eapply elem_of_sublist; [exact Hin | apply limited_sublist]. }
    apply find_files_in_path_mem in Hall as (f & m & Hf & _ & Hm & _ & Hhi).
    rewrite (int_of_Q_floor _ Hpos) in Hhi.
    exists m. split; [unfold mtime_of; by rewrite Hf |].
    eapply Qlt_le_trans; [exact Hhi | exact Hfloor].
  - intros path f m Hf Hcsv Hm Hlo Hold.
    rewrite <- (int_of_Q_floor _ Hpos).
    apply find_files_in_path_mem. exists f, m.
    repeat (split; [done |]). rewrite (int_of_Q_floor _ Hpos).
    set (fl := inject_Z (Qfloor (now w - inject_Z 2))) in *.
    change (inject_Z 1) with 1%Q in Hceil.
    change (inject_Z 2) with 2%Q in Hceil.
    change (inject_Z 3) with 3%Q in Hold. lra.
Qed.

Lemma find_files_in_path_quiet_period_witness :
  let w := Examples.world_of
             {[ "old.csv" := Examples.good_file (997 # 1);
                "new.csv" := Examples.good_file (999 # 1) ]} (10005 # 10) in
  (find_files_in_path 0 None true w).2 = Return ["old.csv"].
Proof.
  cbv zeta.
  destruct (find_files_in_path_quiet_period 0 None true
              (Examples.world_of
                 {[ "old.csv" := Examples.good_file (997 # 1);
                    "new.csv" := Examples.good_file (999 # 1) ]}
                 (10005 # 10)))
    as (paths & all & Hpaths & _).
  - simpl. unfold Qle. simpl. lia.
  - rewrite Hpaths. vm_compute in Hpaths. by injection Hpaths as <-.
Defined.

(** ** The listing of the series at start-up: lemmas *)

Lemma fetch_time_series_run get attempts :
  forall i k w,
    (k < attempts)%nat ->
    (forall j, (i <= j < i + k)%nat -> get j = Raise APIError) ->
    get (i + k)%nat <> Raise APIError ->
    exists w',
      fetch_time_series get attempts i w = (w', get (i + k)%nat)
      /\ logged w' = logged w ++ replicate k (ERROR, MsgExn APIError)
      /\ (now w' == now w + inject_Z (Z.of_nat (sum_list (seq i k))))%Q
      /\ folder w' = folder w
      /\ time_series_cache w' = time_series_cache w
      /\ posted w' = posted w.
Proof.
  induction attempts as [|attempts IH]; intros i k w Hk Hfail Hlast; [lia |].
  simpl. unfold try_except, lift. destruct k as [|k].
  - rewrite Nat.add_0_r in *. exists w.
    split.
    + destruct (get i) as [items|e]; [done |].
      destruct e; try done.
    + simpl. rewrite app_nil_r. repeat split; try done.
      unfold Qeq. simpl. lia.
  - rewrite (Hfail i) by lia. simpl.
    unfold bind at 1. unfold log at 1. unfold bind at 1. unfold pause at 1.
    match goal with
    | |- context [fetch_time_series get attempts (S i) ?W] =>
        destruct (IH (S i) k W) as (w' & Hrun & Hlog & Hnow & Hf & Hc & Hp)
    end.
    + lia.
    + intros j Hj. apply Hfail. lia.
    + by replace (S i + k)%nat with (i + S k)%nat by lia.
    + exists w'. replace (i + S k)%nat with (S i + k)%nat by lia.
      split; [exact Hrun |]. simpl in *.
      rewrite Hlog, <- app_assoc. split; [done |].
      split; [|done].
      rewrite Hnow, Nat2Z.inj_add, inject_Z_plus. ring.
Qed.

Lemma fetch_time_series_exhausted get attempts :
  forall i w,
    (forall j, (i <= j < i + attempts)%nat -> get j = Raise APIError) ->
    exists w',
      fetch_time_series get attempts i w = (w', Raise (SystemExit 1))
      /\ logged w' = logged w ++ replicate attempts (ERROR, MsgExn APIError)
                              ++ [(FATAL, MsgExn (SystemExit 1))]
      /\ (now w' == now w
                    + inject_Z (Z.of_nat (sum_list (seq i attempts))))%Q
      /\ folder w' = folder w
      /\ time_series_cache w' = time_series_cache w
      /\ posted w' = posted w.
Proof.
  induction attempts as [|attempts IH]; intros i w Hfail.
  - eexists. split; [reflexivity |]. simpl. repeat split; try done.
    unfold Qeq. simpl. lia.
  - simpl. unfold try_except, lift. rewrite (Hfail i) by lia. simpl.
    unfold bind at 1. unfold log at 1. unfold bind at 1. unfold pause at 1.
    match goal with
    | |- context [fetch_time_series get attempts (S i) ?W] =>
        destruct (IH (S i) W) as (w' & Hrun & Hlog & Hnow & Hf & Hc & Hp)
    end.
    + intros j Hj. apply Hfail. lia.
    + exists w'. split; [exact Hrun |]. simpl in *.
      rewrite Hlog, <- app_assoc. split; [done |].
      split; [|done].
      rewrite Hnow, Nat2Z.inj_add, inject_Z_plus. ring.
Qed.

(** X14: the listing is asked for at most ten times.  When the first [k]
    calls raise [APIError] and the next one does not, [k] errors are
    logged, the function has slept 0 + 1 + ... + (k-1) seconds, and it
    returns the index of what that call returned, or raises what it
    raised; the answers of later calls play no part. *)
Theorem get_all_time_series_retries get k w :
  (k < 10)%nat ->
  (forall j, (j < k)%nat -> get j = Raise APIError) ->
  get k <> Raise APIError ->
  exists w',
    get_all_time_series get w
    = (w', match get k with
           | Return items => Return (by_external_id items)
           | Raise e => Raise e
           end)
    /\ logged w' = logged w ++ replicate k (ERROR, MsgExn APIError)
    /\ (now w' == now w + inject_Z (Z.of_nat (sum_list (seq 0 k))))%Q
    /\ folder w' = folder w
    /\ time_series_cache w' = time_series_cache w
    /\ posted w' = posted w.
Proof.
  intros Hk Hfail Hlast.
  destruct (fetch_time_series_run get 10 0 k w Hk)
    as (w' & Hrun & Hrest); [intros j Hj; apply Hfail; lia | done |].
  change (0 + k)%nat with k in Hrun. exists w'. split; [|exact Hrest].
  unfold get_all_time_series, bind. rewrite Hrun.
  by destruct (get k).
Qed.

Lemma get_all_time_series_retries_witness :
  let get := fun i => match i with
                      | 0%nat | 1%nat | 2%nat => Raise APIError
                      | _ => Return [mkSeriesJson "flow" {[ "externalID" := "PT100" ]}]
                      end in
  exists w',
    get_all_time_series get quiet_world = (w', Return {[ "PT100" := "flow" ]})
    /\ (now w' == now quiet_world + 3)%Q.
Proof.
  cbv zeta.
  destruct (get_all_time_series_retries
              (fun i => match i with
                        | 0%nat | 1%nat | 2%nat => Raise APIError
                        | _ => Return [mkSeriesJson "flow"
                                         {[ "externalID" := "PT100" ]}]
                        end) 3 quiet_world)
    as (w' & Hrun & _ & Hnow & _).
  - lia.
  - intros [|[|[|j]]] Hj; (reflexivity || lia).
  - done.
  - exists w'. split; [exact Hrun | exact Hnow].
Defined.

(** X15: when all ten calls raise [APIError], ten errors and one fatal line
    are logged, the function has slept 0 + 1 + ... + 9 = 45 seconds, and it
    exits with status 1; an eleventh call is never made. *)
Theorem get_all_time_series_gives_up get w :
  (forall j, (j < 10)%nat -> get j = Raise APIError) ->
  exists w',
    get_all_time_series get w = (w', Raise (SystemExit 1))
    /\ logged w' = logged w ++ replicate 10 (ERROR, MsgExn APIError)
                            ++ [(FATAL, MsgExn (SystemExit 1))]
    /\ (now w' == now w + 45)%Q
    /\ folder w' = folder w
    /\ time_series_cache w' = time_series_cache w
    /\ posted w' = posted w.
Proof.
  intros Hfail.
  destruct (fetch_time_series_exhausted get 10 0 w)
    as (w' & Hrun & Hrest); [intros j Hj; apply Hfail; lia |].
  exists w'. split; [|exact Hrest].
  unfold get_all_time_series, bind. by rewrite Hrun.
Qed.

Lemma get_all_time_series_gives_up_witness :
  exists w',
    get_all_time_series (fun _ => Raise APIError) quiet_world
    = (w', Raise (SystemExit 1))
    /\ (now w' == now quiet_world + 45)%Q.
Proof.
  destruct (get_all_time_series_gives_up (fun _ => Raise APIError) quiet_world)
    as (w' & Hrun & _ & Hnow & _).
  - done.
  - exists w'. split; [exact Hrun | exact Hnow].
Defined.

Lemma by_external_id_snoc items i :
  by_external_id (items ++ [i])
  = match js_metadata i !! "externalID" with
    | Some k => <[k := js_name i]> (by_external_id items)
    | None => by_external_id items
    end.
Proof. unfold by_external_id. by rewrite fold_left_app. Qed.

(** X16: the index of a listing maps an external identifier to the name of
    the last listed series that carries it, and holds no other key: a
    series without the attribute is not indexed. *)
Theorem by_external_id_lookup items k :
  by_external_id items !! k
  = js_name <$> last (List.filter
                        (fun i => bool_decide
                                    (js_metadata i !! "externalID" = Some k))
                        items).
Proof.
  induction items as [|i items IH] using rev_ind; [done |].
  rewrite by_external_id_snoc, List.filter_app. simpl.
  destruct (js_metadata i !! "externalID") as [k'|] eqn:Hk.
  - destruct (decide (k' = k)) as [->|Hne].
    + rewrite lookup_insert_eq, bool_decide_eq_true_2 by done.
      by rewrite last_snoc.
    + rewrite lookup_insert_ne, bool_decide_eq_false_2 by congruence.
      by rewrite app_nil_r.
  - rewrite bool_decide_eq_false_2 by done. by rewrite app_nil_r.
Qed.

(** ** The scanner of the prototype: lemmas *)

Lemma stat_all_Return entries :
  Forall (fun p => is_Some (stat_mtime p.2)) entries ->
  exists pairs,
    Prototype.stat_all entries = Return pairs
    /\ map fst pairs = map fst entries
    /\ Forall2 (fun pm p => pm.1 = p.1 /\ stat_mtime p.2 = Some pm.2)
               pairs entries.
Proof.
  induction 1 as [|[p f] entries [m Hm] _ (pairs & Hrun & Hfst & Hall)].
  - by exists [].
  - exists ((p, m) :: pairs). simpl in *. rewrite Hm, Hrun, Hfst.
    repeat split. by constructor.
Qed.

Lemma stat_all_Raise entries :
  Exists (fun p => stat_mtime p.2 = None) entries ->
  Prototype.stat_all entries = Raise IOError.
Proof.
  induction entries as [|[p f] entries IH]; intros Hex.
  - by apply Exists_nil in Hex.
  - simpl. destruct (stat_mtime f) as [m|] eqn:Hm; [|done].
    apply Exists_cons in Hex as [Hex|Hex]; [simpl in Hex; congruence |].
    by rewrite (IH Hex).
Qed.

Lemma Qleb_le x y : Prototype.Qleb x y = true <-> (x <= y)%Q.
Proof.
  unfold Prototype.Qleb. rewrite negb_true_iff.
  split.
  - intros H. apply Qnot_lt_le. intros Hlt. apply Qltb_lt in Hlt. congruence.
  - intros H. destruct (PyNum.Qltb y x) eqn:Hlt; [|done].
    apply Qltb_lt in Hlt. by apply Qle_not_lt in H.
Qed.

Lemma filter_sublist {A} (P : A -> bool) (l : list A) :
  List.filter P l `sublist_of` l.
Proof.
  induction l as [|x l IH]; simpl; [done |].
  destruct (P x); [by apply sublist_skip | by apply sublist_cons].
Qed.

(** X17: when every [stat] succeeds, the scanner of the prototype returns
    exactly the entries named [*.csv] modified after [last_mtime], the
    newest first, and leaves the world as it is. *)
Theorem find_new_files_newest_first last_mtime w :
  (forall path f, folder w !! path = Some f ->
                  PyStr.endswith path ".csv" = true ->
                  is_Some (stat_mtime f)) ->
  exists paths,
    Prototype.find_new_files last_mtime w = (w, Return paths)
    /\ (forall path,
          path ∈ paths <->
          exists f m,
            folder w !! path = Some f
            /\ PyStr.endswith path ".csv" = true
            /\ stat_mtime f = Some m
            /\ (last_mtime < m)%Q)
    /\ StronglySorted
         (fun a b => exists ma mb,
                       mtime_of w a = Some ma /\ mtime_of w b = Some mb
                       /\ (mb <= ma)%Q)
         paths.
Proof.
  intros Hstat.
  destruct (stat_all_Return (glob_csv w)) as (pairs & Hrun & _ & Hall).
  { apply Forall_forall. intros [p f] Hin.
    apply elem_of_glob_csv in Hin as [Hf Hcsv]. by eapply Hstat. }
  unfold Prototype.find_new_files. rewrite Hrun. eexists. split; [done |].
  assert (Hpair : forall p m,
            (p, m) ∈ pairs <->
            exists f, folder w !! p = Some f
                      /\ PyStr.endswith p ".csv" = true
                      /\ stat_mtime f = Some m).
  { intros p m. split.
    - intros Hin. apply list_elem_of_lookup in Hin as [i Hi].
      destruct (Forall2_lookup_l _ _ _ _ _ Hall Hi)
        as ([p' f] & Hi' & Hp & Hm). simpl in Hp, Hm. subst p'.
      apply list_elem_of_lookup_2, elem_of_glob_csv in Hi' as [Hf Hcsv].
      by exists f.
    - intros (f & Hf & Hcsv & Hm).
      assert (Hin : (p, f) ∈ glob_csv w) by by apply elem_of_glob_csv.
      apply list_elem_of_lookup in Hin as [i Hi].
      destruct (Forall2_lookup_r _ _ _ _ _ Hall Hi)
        as ([p' m'] & Hi' & Hp & Hm'). simpl in Hp, Hm'. subst p'.
      assert (m' = m) as -> by congruence.
      by eapply list_elem_of_lookup_2. }
  set (ordered := sorted (fun a b : string * Q => Prototype.Qleb a.2 b.2)
                         true pairs).
  assert (Hperm : ordered ≡ₚ pairs) by apply sort_by_Permutation.
  split.
  - intros path. rewrite list_elem_of_In, in_map_iff. split.
    + intros ([p m] & <- & Hin). apply filter_In in Hin as [Hin Hlt].
      apply list_elem_of_In in Hin. rewrite Hperm in Hin.
      apply Hpair in Hin as (f & Hf & Hcsv & Hm).
      exists f, m. repeat split; try done. by apply Qltb_lt.
    + intros (f & m & Hf & Hcsv & Hm & Hlt). exists (path, m).
      split; [done |]. apply filter_In. split; [|by apply Qltb_lt].
      apply list_elem_of_In. rewrite Hperm. apply Hpair. by exists f.
  - assert (Hs : StronglySorted
                   (fun a b : string * Q => Prototype.Qleb b.2 a.2 = true)
                   ordered).
    { apply Sorted_StronglySorted.
      - intros a b c Hab Hbc. apply Qleb_le in Hab, Hbc. apply Qleb_le.
        by eapply Qle_trans.
      - unfold ordered, sorted. apply sort_by_Sorted with
          (le := fun a b : string * Q => Prototype.Qleb b.2 a.2).
        intros a b. destruct (Qlt_le_dec a.2 b.2) as [Hlt|Hle].
        + right. apply Qleb_le. by apply Qlt_le_weak.
        + left. by apply Qleb_le. }
    assert (Hall' : Forall (fun pm => mtime_of w pm.1 = Some pm.2) ordered).
    { apply Forall_forall. intros [p m] Hin. rewrite Hperm in Hin.
      apply Hpair in Hin as (f & Hf & _ & Hm).
      unfold mtime_of. simpl. by rewrite Hf. }
    pose proof (filter_sublist
                  (fun a : string * Q => PyNum.Qltb last_mtime a.2) ordered)
      as Hsub.
    pose proof (StronglySorted_sublist _ _ _ Hsub Hs) as Hs'.
    assert (Hall'' : Forall (fun pm => mtime_of w pm.1 = Some pm.2)
                       (List.filter
                          (fun a : string * Q => PyNum.Qltb last_mtime a.2)
                          ordered)).
    { apply Forall_forall. intros pm Hin.
      eapply Forall_forall in Hall'; [exact Hall' |].
      by eapply elem_of_sublist. }
    clear -Hs' Hall''.
    induction Hs' as [|[p m] l Hs' IH Hhd]; simpl; [constructor |].
    apply Forall_cons in Hall'' as [Hp Hl]. simpl in Hp.
    constructor; [by apply IH |].
    apply Forall_forall. intros b Hb.
    apply list_elem_of_In, in_map_iff in Hb as ([p' m'] & <- & Hin).
    apply list_elem_of_In in Hin.
    eapply Forall_forall in Hhd; [|exact Hin].
    eapply Forall_forall in Hl; [|exact Hin]. simpl in *.
    exists m, m'. repeat split; try done. by apply Qleb_le.
Qed.

Lemma find_new_files_newest_first_witness :
  let w := Examples.world_of
             {[ "a.csv" := Examples.good_file (200 # 1);
                "b.csv" := Examples.good_file (100 # 1);
                "c.csv" := Examples.good_file (300 # 1) ]} (1000 # 1) in
  Prototype.find_new_files (150 # 1) w = (w, Return ["c.csv"; "a.csv"]).
Proof.
  cbv zeta.
  destruct (find_new_files_newest_first (150 # 1)
              (Examples.world_of
                 {[ "a.csv" := Examples.good_file (200 # 1);
                    "b.csv" := Examples.good_file (100 # 1);
                    "c.csv" := Examples.good_file (300 # 1) ]} (1000 # 1)))
    as (paths & Hrun & _).
  - intros path f Hf _. simpl in Hf.
    repeat (apply lookup_insert_Some in Hf as [[_ <-]|[_ Hf]]; [by eexists |]).
    apply lookup_singleton_Some in Hf as [_ <-]. by eexists.
  - rewrite Hrun. f_equal. vm_compute in Hrun. by injection Hrun as <-.
Defined.

(** X18: the scanner of the prototype does not guard [stat]: if it fails
    for one entry named [*.csv], old or new, the whole scan raises. *)
Theorem find_new_files_stat_failure last_mtime w path f :
  folder w !! path = Some f ->
  PyStr.endswith path ".csv" = true ->
  stat_mtime f = None ->
  Prototype.find_new_files last_mtime w = (w, Raise IOError).
Proof.
  intros Hf Hcsv Hnone. unfold Prototype.find_new_files.
  rewrite stat_all_Raise; [done |].
  apply Exists_exists. exists (path, f).
  split; [by apply elem_of_glob_csv | done].
Qed.

Lemma find_new_files_stat_failure_witness :
  Prototype.find_new_files (0 # 1)
    (Examples.world_of
       {[ "a.csv" := mkFile None (Raise IOError) ]} (1000 # 1))
  = (Examples.world_of
       {[ "a.csv" := mkFile None (Raise IOError) ]} (1000 # 1),
     Raise IOError).
Proof.
  apply (find_new_files_stat_failure _ _ "a.csv" (mkFile None (Raise IOError)));
    reflexivity.
Defined.

(** ** The delivery of the prototype: lemmas *)

Lemma stat_all_inv entries :
  forall pairs,
    Prototype.stat_all entries = Return pairs ->
    Forall2 (fun pm p => pm.1 = p.1 /\ stat_mtime p.2 = Some pm.2)
            pairs entries.
Proof.
  induction entries as [|[p f] entries IH]; intros pairs; simpl.
  - intros [= <-]. constructor.
  - destruct (stat_mtime f) as [m|] eqn:Hm; [|done].
    destruct (Prototype.stat_all entries) as [l|]; [|done].
    intros [= <-]. constructor; [done |]. by apply IH.
Qed.

Lemma find_new_files_sound last_mtime w paths path :
  (Prototype.find_new_files last_mtime w).2 = Return paths ->
  path ∈ paths ->
  exists m, mtime_of w path = Some m /\ (last_mtime < m)%Q.
Proof.
  unfold Prototype.find_new_files.
  destruct (Prototype.stat_all (glob_csv w)) as [pairs|] eqn:Hstat; [|done].
  simpl. intros [= <-] Hin.
  apply list_elem_of_In, in_map_iff in Hin as ([p m] & <- & Hin).
  apply filter_In in Hin as [Hin Hlt]. apply list_elem_of_In in Hin.
  unfold sorted in Hin. rewrite sort_by_Permutation in Hin.
  apply list_elem_of_lookup in Hin as [i Hi].
  destruct (Forall2_lookup_l _ _ _ _ _ (stat_all_inv _ _ Hstat) Hi)
    as ([p' f] & Hi' & Hp & Hm). simpl in Hp, Hm. subst p'.
  apply list_elem_of_lookup_2, elem_of_glob_csv in Hi' as [Hf _].
  simpl in *. exists m. split; [unfold mtime_of; by rewrite Hf |].
  by apply Qltb_lt.
Qed.

Lemma max_mtime_run paths :
  forall best w,
    exists o,
      PrototypePost.max_mtime paths best w = (w, o)
      /\ (forall t, o = Return t ->
            (forall b, best = Some b -> (b <= t)%Q)
            /\ (forall path, path ∈ paths ->
                  exists m, mtime_of w path = Some m /\ (m <= t)%Q)).
Proof.
  induction paths as [|path paths IH]; intros best w; simpl.
  - destruct best as [b|].
    + eexists. split; [reflexivity |]. intros t [= <-]. split.
      * intros b' [= <-]. apply Qle_refl.
      * intros path Hin. by apply elem_of_nil in Hin.
    + eexists. split; [reflexivity |]. done.
  - unfold bind, PrototypePost.stat.
    destruct (mtime_of w path) as [m|] eqn:Hm.
    2:{ eexists. split; [reflexivity |]. done. }
    match goal with
    | |- context [PrototypePost.max_mtime paths ?b w] =>
        destruct (IH b w) as (o & Hrun & Hmax)
    end.
    exists o. split; [exact Hrun |]. intros t Ht.
    destruct (Hmax t Ht) as [Hbest Hrest].
    assert (Hm_le : (m <= t)%Q).
    { destruct best as [b|]; [|by apply Hbest].
      destruct (PyNum.Qltb b m) eqn:Hlt; [by apply Hbest |].
      specialize (Hbest b eq_refl).
      eapply Qle_trans; [|exact Hbest].
      apply Qnot_lt_le. intros H. apply Qltb_lt in H. congruence. }
    split.
    + intros b ->. destruct (PyNum.Qltb b m) eqn:Hlt.
      * eapply Qle_trans; [|exact Hm_le].
        apply Qlt_le_weak. by apply Qltb_lt.
      * by apply Hbest.
    + intros p Hin. apply elem_of_cons in Hin as [->|Hin].
      * by exists m.
      * by apply Hrest.
Qed.

Lemma same_files_prototype_column client existing timestamps col locals :
  keeps same_files
        (PrototypePost.column_body client existing timestamps col locals)
        (fun _ => True).
Proof.
  destruct locals as [cur n]. unfold PrototypePost.column_body.
  eapply (keeps_bind same_files) with (mid := fun _ => True).
  { destruct (BATCH_MAX <=? length cur)%nat; [|by apply (keeps_ret same_files)].
    unfold PrototypePost.post.
    eapply (keeps_bind same_files) with (mid := fun _ => True).
    - by apply (keeps_call same_files) with (allowed := fun _ => True).
    - intros _ _. by apply (keeps_ret same_files). }
  intros cur' _. case_bool_decide; [|by apply (keeps_ret same_files)].
  eapply (keeps_bind same_files); [apply (keeps_lift same_files) |].
  intros dps _. destruct dps; by apply (keeps_ret same_files).
Qed.

Lemma same_files_prototype_paths client existing paths :
  forall cur,
    keeps same_files (PrototypePost.paths_loop client existing paths cur)
          (fun _ => True).
Proof.
  induction paths as [|path paths IH]; intros cur; simpl.
  - by apply (keeps_ret same_files).
  - eapply (keeps_bind same_files) with (mid := fun _ => True).
    { intros w. unfold pandas_read_csv.
      destruct (folder w !! path) as [f|]; simpl; [|by split].
      split; [done |]. by destruct (read_csv f). }
    intros df _. eapply (keeps_bind same_files); [apply (keeps_lift same_files) |].
    intros timestamps _.
    eapply (keeps_bind same_files) with (mid := fun _ => True).
    { generalize (cur, 0%nat).
      induction (columns df) as [|col cols IHc]; intros locals; simpl.
      - by apply (keeps_ret same_files).
      - eapply (keeps_bind same_files);
          [apply same_files_prototype_column |].
        intros locals' _. apply IHc. }
    intros locals _.
    eapply (keeps_bind same_files) with (mid := fun _ => True).
    { destruct locals.1; [by apply (keeps_ret same_files) |].
      unfold PrototypePost.post.
      eapply (keeps_bind same_files) with (mid := fun _ => True).
      - by apply (keeps_call same_files) with (allowed := fun _ => True).
      - intros _ _. by apply (keeps_ret same_files). }
    intros cur' _.
    eapply (keeps_bind same_files) with (mid := fun _ => True).
    { by apply (keeps_log same_files). }
    intros _ _. apply IH.
Qed.

(** X19: when the delivery of the prototype returns, it has left both
    folders as they were, the timestamp it returns is at least the
    modification time of every path it was given, and a scan from that
    timestamp returns none of these paths again. *)
Theorem post_datapoints_watermark client paths existing w w' t :
  PrototypePost.post_datapoints client paths existing w = (w', Return t) ->
  folder w' = folder w
  /\ (forall path, path ∈ paths ->
        exists m, mtime_of w path = Some m /\ (m <= t)%Q)
  /\ (forall found,
        (Prototype.find_new_files t w').2 = Return found ->
        forall path, path ∈ paths -> path ∉ found).
Proof.
  unfold PrototypePost.post_datapoints, bind.
  destruct (same_files_prototype_paths client existing paths [] w)
    as [[Hfolder _] _].
  destruct (PrototypePost.paths_loop client existing paths [] w)
    as [w1 [cur|e]]; [|done].
  simpl in Hfolder.
  destruct (max_mtime_run paths None w1) as (o & Hrun & Hmax).
  rewrite Hrun. intros [= <- ->].
  destruct (Hmax t eq_refl) as [_ Hle].
  assert (Hmt : forall path, mtime_of w1 path = mtime_of w path).
  { intros path. unfold mtime_of. by rewrite Hfolder. }
  split; [done |]. split.
  - intros path Hin. rewrite <- Hmt. by apply Hle.
  - intros found Hfound path Hin Hin'.
    destruct (find_new_files_sound t w1 found path Hfound Hin')
      as (m & Hm & Hlt).
    destruct (Hle path Hin) as (m' & Hm' & Hle').
    assert (m' = m) as -> by congruence.
    by apply Qle_not_lt in Hle'.
Qed.

Lemma post_datapoints_watermark_witness :
  let w := Examples.world_of
             {[ "a.csv" := Examples.good_file (200 # 1);
                "b.csv" := Examples.good_file (100 # 1) ]} (1000 # 1) in
  let r := PrototypePost.post_datapoints Examples.ok_client
             ["a.csv"; "b.csv"] {[ "flow" ]} w in
  r.2 = Return (200 # 1)
  /\ (Prototype.find_new_files (200 # 1) r.1).2 = Return []
  /\ folder r.1 = folder w.
Proof.
  cbv zeta.
  destruct (PrototypePost.post_datapoints Examples.ok_client
              ["a.csv"; "b.csv"] {[ "flow" ]}
              (Examples.world_of
                 {[ "a.csv" := Examples.good_file (200 # 1);
                    "b.csv" := Examples.good_file (100 # 1) ]} (1000 # 1)))
    as [w' o] eqn:Hrun.
  assert (Ho : o = Return (200 # 1)).
  { apply (f_equal snd) in Hrun. simpl in Hrun. rewrite <- Hrun.
    vm_compute. reflexivity. }
  subst o.
  destruct (post_datapoints_watermark _ _ _ _ _ _ Hrun) as (Hfolder & _ & _).
  simpl. split; [done |]. split; [|exact Hfolder].
  apply (f_equal fst) in Hrun. simpl in Hrun. rewrite <- Hrun.
  vm_compute. reflexivity.
Defined.

Lemma data_points_from_rejects before :
  forall i s after timestamps acc,
    Forall null_or_float before ->
    (i + length before < length timestamps)%nat ->
    PyNum.float_of_str (PyStr.replace "," "." s) = None ->
    PrototypePost.data_points_from i (before ++ CStr s :: after) timestamps acc
    = Raise ValueError.
Proof.
  induction before as [|c before IH]; intros i s after timestamps acc Hok Hlen Hs;
    simpl in *.
  - destruct (lookup_lt_is_Some_2 timestamps i) as [t ->]; [lia |].
    by rewrite Hs.
  - apply Forall_cons in Hok as [Hc Hok].
    destruct c as [|s'|f]; [| |done]; simpl.
    + apply IH; [done | lia | done].
    + destruct (lookup_lt_is_Some_2 timestamps i) as [t ->]; [lia |].
      simpl in Hc. destruct Hc as [v ->]. apply IH; [done | lia | done].
Qed.

(** X20: in the prototype a string cell that [float] rejects is not passed
    over: the column of a known series raises [ValueError] at the first
    such cell, before anything of the column is buffered or sent. *)
Theorem prototype_column_rejects
    client existing timestamps col before s after cur n w :
  name_of col ∈ existing ->
  (length cur < BATCH_MAX)%nat ->
  Forall null_or_float before ->
  (length before < length timestamps)%nat ->
  PyNum.float_of_str (PyStr.replace "," "." s) = None ->
  PrototypePost.column_body client existing timestamps
    (col, before ++ CStr s :: after) (cur, n) w
  = (w, Raise ValueError).
Proof.
  intros Hname Hroom Hok Hlen Hs. unfold PrototypePost.column_body.
  assert (Hfull : (BATCH_MAX <=? length cur)%nat = false)
    by (apply Nat.leb_gt; lia).
  rewrite Hfull. unfold bind, ret, lift. simpl.
  rewrite bool_decide_eq_true_2 by done.
  by rewrite data_points_from_rejects.
Qed.

Lemma prototype_column_rejects_witness :
  PrototypePost.column_body Examples.ok_client {[ "flow" ]}
    [1000; 2000; 3000]
    ("PT100:flow", [CStr "1,5"; CStr "n/a"; CStr "2"]) ([], 0%nat) quiet_world
  = (quiet_world, Raise ValueError).
Proof.
  apply (prototype_column_rejects Examples.ok_client {[ "flow" ]}
           [1000; 2000; 3000] "PT100:flow" [CStr "1,5"] "n/a" [CStr "2"]).
  - vm_compute. set_solver.
  - unfold BATCH_MAX. simpl. lia.
  - repeat constructor. by eexists.
  - simpl. lia.
  - reflexivity.
Defined.
